(** * aerrand: delivery lifecycle and driver registration

    A shallow embedding of the request handlers of
    [controllers/deliveryController.js] and
    [controllers/driverRegistrationController.js], of the schema of
    [models/Delivery.js] and of the notification helpers of
    [services/NotificationService.js], followed by the properties of the
    delivery state machine and of the registration step machine.

    Conventions of the embedding.
    - A MongoDB collection is a finite map from [_id] to document
      ([gmap ObjectId _]); the one-time-code collection, which is only ever
      filtered and appended to, is a list.
    - A handler is a function from its request and the persisted state
      ([World]) to its HTTP response and the new state.  Each handler runs
      to completion on the state it is given: the store's single-document
      conditional update is atomic, and handlers are composed sequentially.
    - [new Date()] is the handler's [now] argument (milliseconds).
    - A verified bearer token is the claim set it carries; a token that
      [jwt.verify] rejects is [BadToken].
    - JavaScript numbers that hold amounts are integers ([Z]); mongoose
      refuses NaN for a [Number] path. *)

From stdpp Require Import gmap strings list sorting.
From Stdlib Require Import ZArith.

Abbreviation ObjectId := N (only parsing).

(** ** JavaScript truthiness of the values the handlers test *)

Module Js.

(** [!s] is false exactly for a non-empty string; [undefined], [null]
    and the empty string are falsy. *)
Definition truthy (s : option string) : bool :=
  match s with
  | Some EmptyString => false
  | Some _ => true
  | None => false
  end.

(** [a || b] on numbers, where [None] is [undefined]. *)
Definition or_num (a b : option Z) : option Z :=
  match a with
  | Some z => if (z =? 0)%Z then b else a
  | None => b
  end.

(** [Array.prototype.indexOf], -1 when the element is absent. *)
Fixpoint indexOf (x : string) (l : list string) : Z :=
  match l with
  | [] => -1
  | y :: l' =>
      if String.eqb y x then 0%Z
      else let i := indexOf x l' in
           if (i <? 0)%Z then (-1)%Z else (i + 1)%Z
  end.

(** [Array.prototype.includes] on strings. *)
Definition includes (l : list string) (x : string) : bool :=
  existsb (String.eqb x) l.

End Js.

(** ** The operations of a collection *)

Module Mongo.
Section Collection.
Context {A : Type}.

(** [Model.find(query)]: the matching documents. *)
Definition find (q : A → bool) (c : gmap ObjectId A) : list (ObjectId * A) :=
  filter (λ kv, q kv.2 = true) (map_to_list c).

(** [Model.findOne(query)]. *)
Definition findOne (q : A → bool) (c : gmap ObjectId A) : option (ObjectId * A) :=
  head (find q c).

(** [Model.countDocuments(query)]. *)
Definition countDocuments (q : A → bool) (c : gmap ObjectId A) : nat :=
  length (find q c).

(** [Model.findById(id)]. *)
Definition findById (id : ObjectId) (c : gmap ObjectId A) : option A := c !! id.

(** [Model.findOneAndUpdate({_id: id, ...query}, update, {new: true})]:
    the document with that [_id] is updated when it satisfies the rest
    of the query, and the updated document is returned; otherwise
    nothing is written and the result is [null]. *)
Definition findOneAndUpdate (id : ObjectId) (q : A → bool) (u : A → A)
    (c : gmap ObjectId A) : option (ObjectId * A) * gmap ObjectId A :=
  match c !! id with
  | Some d => if q d then (Some (id, u d), <[id := u d]> c) else (None, c)
  | None => (None, c)
  end.

(** [Model.findOne({ ...query, _id: { $ne: id } })]; without the [_id]
    condition when [ex] is [None]. *)
Definition findOneExcept (ex : option ObjectId) (q : A → bool) (c : gmap ObjectId A)
    : option (ObjectId * A) :=
  head (filter (λ kv, q kv.2 = true ∧ Some kv.1 ≠ ex) (map_to_list c)).

(** [.sort({key: -1})]: descending in [key]. *)
Definition descending (key : A → Z) (a b : ObjectId * A) : Prop :=
  (key b.2 ≤ key a.2)%Z.

#[global] Instance descending_dec key a b : Decision (descending key a b) :=
  decide (key b.2 ≤ key a.2)%Z.

Definition sortDesc (key : A → Z) (l : list (ObjectId * A)) : list (ObjectId * A) :=
  merge_sort (descending key) l.

(** [doc.save()] of a document loaded under [id]. *)
Definition save (id : ObjectId) (d : A) (c : gmap ObjectId A) : gmap ObjectId A :=
  <[id := d]> c.

(** [Model.create(doc)]: stored under a new [_id]. *)
Definition create (d : A) (c : gmap ObjectId A) : ObjectId * gmap ObjectId A :=
  let id := fresh (dom c) in (id, <[id := d]> c).
End Collection.
End Mongo.

(** ** models/Delivery.js *)

Module Delivery.

(** The [status] enum:
    'upcoming', 'pending', 'accepted', 'in-transit', 'completed',
    'cancelled'. *)
Inductive Status := Upcoming | Pending | Accepted | InTransit | Completed | Cancelled.

(** The [driverId] path: the field may be missing from the stored
    document, hold [null] (the schema default), or reference a driver. *)
Inductive DriverRef := Absent | Null | Ref (driver : ObjectId).

(** The paths of the schema that the lifecycle handlers read or write.
    Locations, receiver details, escrow and photos are not touched by
    them. *)
Record Doc := mkDoc {
  senderId : ObjectId;
  driverId : DriverRef;
  price : Z;
  status : Status;
  acceptedAt : option Z;
  startedAt : option Z;
  completedAt : option Z;
  createdAt : Z;
  updatedAt : Z
}.

Definition status_eqb (a b : Status) : bool :=
  match a, b with
  | Upcoming, Upcoming | Pending, Pending | Accepted, Accepted
  | InTransit, InTransit | Completed, Completed | Cancelled, Cancelled => true
  | _, _ => false
  end.

(** The query [{driverId: null}] matches a null and a missing field. *)
Definition driverId_is_null (d : Doc) : bool :=
  match driverId d with Ref _ => false | _ => true end.

(** The query [{driverId: {$exists: false}}]. *)
Definition driverId_not_exists (d : Doc) : bool :=
  match driverId d with Absent => true | _ => false end.

(** The query [{driverId: id}]. *)
Definition driverId_is (id : ObjectId) (d : Doc) : bool :=
  match driverId d with Ref x => N.eqb x id | _ => false end.

(** [$or: [{driverId: null}, {driverId: {$exists: false}}]]. *)
Definition unclaimed (d : Doc) : bool :=
  driverId_is_null d || driverId_not_exists d.

(** [deliverySchema.methods.isAvailable]. *)
Definition isAvailable (d : Doc) : bool :=
  status_eqb (status d) Upcoming && unclaimed d.

(** [deliverySchema.statics.findAvailable]. *)
Definition findAvailable (c : gmap ObjectId Doc) : list (ObjectId * Doc) :=
  Mongo.sortDesc createdAt
    (Mongo.find (λ d, status_eqb (status d) Upcoming
                      && (driverId_not_exists d || driverId_is_null d)) c).

(** [delivery.estimatedEarning]: not a path of the schema, so the
    property of a loaded document is [undefined]. *)
Definition estimatedEarning (d : Doc) : option Z := None.

End Delivery.

(** ** models/Notification.js and services/NotificationService.js *)

Module NotificationService.

(** The structured payload ([data]) of the notifications emitted by the
    handlers below.  Title, message text and action button are fixed per
    type and are left out. *)
Inductive Data :=
| DeliveryData (deliveryId : ObjectId)
| EarningData (deliveryId : ObjectId) (earning : Z)
| PaymentData (amount : Z) (description : string)
| DocumentData (documentType : string)
| FieldsData (updatedFields : list string)
| StepData (registrationStep : string)
| NoData.

Record Notification := mkNotification {
  userId : ObjectId;
  ntype : string;
  data : Data;
  priority : string
}.

(** [createNotification] appends a record to the sink.  The sink is taken
    to accept every record; a handler swallows the sink's failures. *)
Definition createNotification (u : ObjectId) (ty : string) (d : Data)
    (prio : string) (sink : list Notification) : list Notification :=
  sink ++ [mkNotification u ty d prio].

Definition notifyDeliveryAccepted (driver deliveryId : ObjectId) :=
  createNotification driver "delivery_accepted"
    (DeliveryData deliveryId) "high".

Definition notifyDeliveryStarted (driver deliveryId : ObjectId) :=
  createNotification driver "delivery_started"
    (DeliveryData deliveryId) "medium".

Definition notifyDeliveryCompleted (driver deliveryId : ObjectId) (earning : Z) :=
  createNotification driver "delivery_completed"
    (EarningData deliveryId earning) "high".

Definition notifyPaymentSuccess (driver : ObjectId) (amount : Z) (description : string) :=
  createNotification driver "payment_success"
    (PaymentData amount description) "high".

Definition notifyProfileUpdated (driver : ObjectId) (fields : list string) :=
  createNotification driver "profile_updated"
    (FieldsData fields) "low".

Definition notifyDocumentUploaded (driver : ObjectId) (documentType : string) :=
  createNotification driver "document_uploaded"
    (DocumentData documentType) "medium".

Definition notifyRegistrationCompleted (driver : ObjectId) :=
  createNotification driver "registration_completed"
    (StepData "completed") "high".

Definition notifyVerificationApproved (driver : ObjectId) :=
  createNotification driver "verification_approved"
    NoData "high".

End NotificationService.

(** ** models/Otp.js *)

Module Otp.

(** [type] has the enum 'driver_registration', 'user_registration',
    'password_reset'. *)
Record Doc := mkDoc {
  phone : string;
  code : string;
  otype : string;
  expiresAt : Z
}.

End Otp.

(** ** models/Driver.js *)

Module Driver.

(** The record of one uploaded document. *)
Record Document := mkDocument {
  filename : option string;
  originalName : option string;
  mimetype : option string;
  size : Z;
  url : string;
  publicId : option string;
  uploadedAt : Z
}.

(** Modelled from the spec: the schema file models/Driver.js is not among
    the sources.  The record has the paths that the registration and
    delivery handlers read and write, with the spec's Driver data model:
    identity (phone, email), name parts, registration step, verified flag,
    earn type, city, referral code, availability, and the sparse mapping
    from document-type key to document record.  An unset string path is
    [None]; [documents] itself may be unset. *)
Record Doc := mkDoc {
  name : option string;
  firstName : option string;
  lastName : option string;
  email : option string;
  phone : option string;
  password : option string;
  verified : bool;
  registrationStep : option string;
  earnType : option string;
  city : option string;
  referralCode : option string;
  documents : option (gmap string Document);
  available : bool;
  totalDeliveries : Z
}.

Definition set_basic_info (nm fn ln em pw : option string) (d : Doc) : Doc :=
  mkDoc nm fn ln em (phone d) pw (verified d) (Some "basic_info_completed")
        (earnType d) (city d) (referralCode d) (documents d) (available d)
        (totalDeliveries d).

Definition set_earn_type (et ct rc : option string) (d : Doc) : Doc :=
  mkDoc (name d) (firstName d) (lastName d) (email d) (phone d) (password d)
        (verified d) (Some "earn_type_completed") et ct rc (documents d)
        (available d) (totalDeliveries d).

Definition set_documents (docs : gmap string Document) (d : Doc) : Doc :=
  mkDoc (name d) (firstName d) (lastName d) (email d) (phone d) (password d)
        (verified d) (registrationStep d) (earnType d) (city d)
        (referralCode d) (Some docs) (available d) (totalDeliveries d).

Definition set_registrationStep (st : string) (d : Doc) : Doc :=
  mkDoc (name d) (firstName d) (lastName d) (email d) (phone d) (password d)
        (verified d) (Some st) (earnType d) (city d) (referralCode d)
        (documents d) (available d) (totalDeliveries d).

Definition set_completed (d : Doc) : Doc :=
  mkDoc (name d) (firstName d) (lastName d) (email d) (phone d) (password d)
        true (Some "completed") (earnType d) (city d) (referralCode d)
        (documents d) false (totalDeliveries d).

(** [$inc: { totalDeliveries: 1 }]. *)
Definition inc_totalDeliveries (d : Doc) : Doc :=
  mkDoc (name d) (firstName d) (lastName d) (email d) (phone d) (password d)
        (verified d) (registrationStep d) (earnType d) (city d)
        (referralCode d) (documents d) (available d) (totalDeliveries d + 1).

(** [Object.keys(driver.documents)], or the empty list when [documents]
    is unset. *)
Definition uploadedDocs (d : Doc) : list string :=
  match documents d with
  | Some docs => (map_to_list docs).*1
  | None => []
  end.

End Driver.

(** ** The persisted state *)

Record World := mkWorld {
  deliveries : gmap ObjectId Delivery.Doc;
  drivers : gmap ObjectId Driver.Doc;
  otps : list Otp.Doc;
  notifications : list NotificationService.Notification;
  (** public ids handed to [cloudinary.uploader.destroy] *)
  destroyed : list string
}.

Definition with_deliveries (c : gmap ObjectId Delivery.Doc) (w : World) : World :=
  mkWorld c (drivers w) (otps w) (notifications w) (destroyed w).

Definition with_drivers (c : gmap ObjectId Driver.Doc) (w : World) : World :=
  mkWorld (deliveries w) c (otps w) (notifications w) (destroyed w).

Definition with_otps (c : list Otp.Doc) (w : World) : World :=
  mkWorld (deliveries w) (drivers w) c (notifications w) (destroyed w).

(** A call of a [NotificationService] helper inside [try { } catch]. *)
Definition notify
    (f : list NotificationService.Notification → list NotificationService.Notification)
    (w : World) : World :=
  mkWorld (deliveries w) (drivers w) (otps w) (f (notifications w)) (destroyed w).

Definition destroy (publicId : string) (w : World) : World :=
  mkWorld (deliveries w) (drivers w) (otps w) (notifications w)
          (destroyed w ++ [publicId]).

(** ** controllers/deliveryController.js *)

Module DeliveryController.
Import Delivery.

(** The [:deliveryId] route parameter as [isValidObjectId] sees it: a
    string that is not an object id, or an object id.  The handlers below
    answer [InvalidId] in the first case, before any query. *)
Inductive IdParam := Malformed | WellFormed (id : ObjectId).

Definition isValidObjectId (p : IdParam) : bool :=
  match p with WellFormed _ => true | Malformed => false end.

Record Response := mkResponse {
  code : nat;
  success : bool;
  message : string;
  delivery : option (ObjectId * Doc)
}.

Definition InvalidId : Response :=
  mkResponse 400 false "Invalid delivery ID format" None.

(** The spec's [Conflict] of ClaimDelivery. *)
Definition Conflict : Response :=
  mkResponse 400 false "You already have an active delivery" None.

(** The spec's [NotAvailable]. *)
Definition NotAvailable : Response :=
  mkResponse 400 false "Delivery not available or already accepted" None.

(** The spec's [InvalidTransition], as StartDelivery reports it. *)
Definition InvalidTransition : Response :=
  mkResponse 400 false "Delivery not found or cannot be started" None.

(** The spec's [InvalidTransition], as CompleteDelivery reports it. *)
Definition CannotComplete : Response :=
  mkResponse 400 false "Delivery not found or cannot be completed" None.

Definition ok (msg : string) (d : ObjectId * Doc) : Response :=
  mkResponse 200 true msg (Some d).

(** [status: { $in: ['accepted', 'in-transit'] }]. *)
Definition status_active (d : Doc) : bool :=
  status_eqb (status d) Accepted || status_eqb (status d) InTransit.

(** [{ driverId: driverId, status: { $in: ['accepted', 'in-transit'] } }]. *)
Definition activeFor (driver : ObjectId) (d : Doc) : bool :=
  driverId_is driver d && status_active d.

(** [{ status: 'upcoming', $or: [{driverId: null}, {driverId: {$exists: false}}] }],
    the part of the claim query besides [_id]. *)
Definition claimable (d : Doc) : bool :=
  status_eqb (status d) Upcoming && unclaimed d.

(** [{ driverId: driverId, status: 'accepted', acceptedAt: new Date() }];
    the schema option [timestamps] also stamps [updatedAt]. *)
Definition claimUpdate (driver : ObjectId) (now : Z) (d : Doc) : Doc :=
  mkDoc (senderId d) (Ref driver) (price d) Accepted (Some now)
        (startedAt d) (completedAt d) (createdAt d) now.

(** [{ status: 'in-transit', startedAt: new Date() }]. *)
Definition startUpdate (now : Z) (d : Doc) : Doc :=
  mkDoc (senderId d) (driverId d) (price d) InTransit (acceptedAt d)
        (Some now) (completedAt d) (createdAt d) now.

(** [{ status: 'completed', completedAt: new Date() }]. *)
Definition completeUpdate (now : Z) (d : Doc) : Doc :=
  mkDoc (senderId d) (driverId d) (price d) Completed (acceptedAt d)
        (startedAt d) (Some now) (createdAt d) now.

(** [acceptDelivery]: ClaimDelivery. *)
Definition acceptDelivery (driverId : ObjectId) (deliveryId : IdParam) (now : Z)
    (w : World) : Response * World :=
  match deliveryId with
  | Malformed => (InvalidId, w)
  | WellFormed id =>
      match Mongo.findOne (activeFor driverId) (deliveries w) with
      | Some _ => (Conflict, w)
      | None =>
          match Mongo.findOneAndUpdate id claimable (claimUpdate driverId now)
                  (deliveries w) with
          | (None, _) => (NotAvailable, w)
          | (Some d, c) =>
              let w1 := with_deliveries c w in
              let w2 := with_drivers
                          (alter Driver.inc_totalDeliveries driverId (drivers w1)) w1 in
              let w3 := notify (NotificationService.notifyDeliveryAccepted driverId d.1) w2 in
              (ok "Delivery accepted successfully" d, w3)
          end
      end
  end.

(** [startDelivery]: StartDelivery. *)
Definition startDelivery (driverId : ObjectId) (deliveryId : IdParam) (now : Z)
    (w : World) : Response * World :=
  match deliveryId with
  | Malformed => (InvalidId, w)
  | WellFormed id =>
      match Mongo.findOneAndUpdate id
              (λ d, driverId_is driverId d && status_eqb (status d) Accepted)
              (startUpdate now) (deliveries w) with
      | (None, _) => (InvalidTransition, w)
      | (Some d, c) =>
          let w1 := with_deliveries c w in
          let w2 := notify (NotificationService.notifyDeliveryStarted driverId d.1) w1 in
          (ok "Delivery started successfully" d, w2)
      end
  end.

(** [delivery.price || delivery.estimatedEarning || 0]. *)
Definition earning (d : Doc) : Z :=
  default 0%Z (Js.or_num (Js.or_num (Some (price d)) (estimatedEarning d)) (Some 0%Z)).

(** [completeDelivery]: CompleteDelivery. *)
Definition completeDelivery (driverId : ObjectId) (deliveryId : IdParam) (now : Z)
    (w : World) : Response * World :=
  match deliveryId with
  | Malformed => (InvalidId, w)
  | WellFormed id =>
      match Mongo.findOneAndUpdate id
              (λ d, driverId_is driverId d && status_eqb (status d) InTransit)
              (completeUpdate now) (deliveries w) with
      | (None, _) => (CannotComplete, w)
      | (Some d, c) =>
          let w1 := with_deliveries c w in
          let e := earning d.2 in
          let w2 := notify (NotificationService.notifyDeliveryCompleted driverId d.1 e) w1 in
          let w3 := if (0 <? e)%Z
                    then notify (NotificationService.notifyPaymentSuccess driverId e
                                   "delivery completion") w2
                    else w2 in
          (ok "Delivery completed successfully" d, w3)
      end
  end.

(** [getAvailableDeliveries]: ListAvailable.  The [deliveries] of the
    response; the query of the handler has its [status: 'upcoming'] line
    commented out, so only the [$or] on [driverId] filters.  The debug
    counters of the response are left out. *)
Definition getAvailableDeliveries (w : World) : list (ObjectId * Doc) :=
  Mongo.sortDesc createdAt (Mongo.find unclaimed (deliveries w)).

(** The delivery operations of a driver, for sequences of calls. *)
Inductive Op :=
| ClaimDelivery (driverId : ObjectId) (deliveryId : IdParam) (now : Z)
| StartDelivery (driverId : ObjectId) (deliveryId : IdParam) (now : Z)
| CompleteDelivery (driverId : ObjectId) (deliveryId : IdParam) (now : Z).

Definition run (o : Op) (w : World) : Response * World :=
  match o with
  | ClaimDelivery d i t => acceptDelivery d i t w
  | StartDelivery d i t => startDelivery d i t w
  | CompleteDelivery d i t => completeDelivery d i t w
  end.

(** The state after a sequence of operations, responses dropped. *)
Definition run_all (ops : list Op) (w : World) : World :=
  foldl (λ w o, (run o w).2) w ops.

End DeliveryController.

(** ** controllers/driverRegistrationController.js *)

Module DriverRegistrationController.

(** The claim set of a signed token. *)
Record Claims := mkClaims {
  c_id : option ObjectId;
  c_phone : option string;
  c_email : option string;
  c_step : option string;
  c_type : option string
}.

(** [jwt.sign(claims, secret, { expiresIn })]. *)
Record Token := mkToken {
  claims : Claims;
  expiresIn : string
}.

(** The [Authorization] header after [jwt.verify]: missing, rejected
    (malformed, wrongly signed or expired), or the decoded claims. *)
Inductive Authorization := NoToken | BadToken | Bearer (decoded : Claims).

(** The JSON body of a response, with the keys the handlers below set. *)
Record Response := mkResponse {
  code : nat;
  message : string;
  otp : option string;
  tempToken : option Token;
  token : option Token;
  nextStep : option string;
  errors : list string;
  missingDocuments : list string;
  uploadedDocuments : list string;
  warnings : list string;
  allowedActions : list string;
  driver : option (ObjectId * Driver.Doc)
}.

Definition reply (c : nat) (msg : string) : Response :=
  mkResponse c msg None None None None [] [] [] [] [] None.

(** [const generateOTP = () => "123456"]. *)
Definition generateOTP : string := "123456".

Definition stepOrder : list string :=
  ["verified_phone"; "basic_info_completed"; "earn_type_completed";
   "documents_uploading"; "completed"].

(** [step ? stepOrder.indexOf(step) : -1]. *)
Definition stepIndex (step : option string) : Z :=
  match step with
  | Some s => if Js.truthy step then Js.indexOf s stepOrder else (-1)%Z
  | None => (-1)%Z
  end.

(** [getCurrentRegistrationStep(driver, tokenStep)]: the effective step. *)
Definition getCurrentRegistrationStep (d : Driver.Doc) (tokenStep : option string) : string :=
  let driverStepIndex := stepIndex (Driver.registrationStep d) in
  let tokenStepIndex := stepIndex tokenStep in
  let currentIndex := Z.max driverStepIndex tokenStepIndex in
  if (0 <=? currentIndex)%Z
  then nth (Z.to_nat currentIndex) stepOrder "verified_phone"
  else "verified_phone".

Definition requiredDocs : list string := ["driversLicense"; "profilePhoto"].

(** [requiredDocs.filter(doc => !uploadedDocs.includes(doc))]. *)
Definition missingDocs (d : Driver.Doc) : list string :=
  List.filter (λ doc, negb (Js.includes (Driver.uploadedDocs d) doc)) requiredDocs.

(** [getNextAllowedActions(driver, currentStep)]; the second argument is
    not read. *)
Definition getNextAllowedActions (d : Driver.Doc) : list string :=
  (if negb (Js.truthy (Driver.name d)) || negb (Js.truthy (Driver.email d))
   then ["complete_basic_info"] else [])
  ++ (if negb (Js.truthy (Driver.earnType d)) || negb (Js.truthy (Driver.city d))
      then ["setup_earn_type"] else [])
  ++ (if Nat.eqb (length (Driver.uploadedDocs d)) 0
      then ["upload_documents"] else [])
  ++ (if Nat.eqb (length (missingDocs d)) 0
         && Js.truthy (Driver.earnType d) && Js.truthy (Driver.city d)
         && Js.truthy (Driver.name d)
      then ["complete_registration"] else []).

(** [Driver.findOne({ phone })]. *)
Definition findByPhone (ph : string) (c : gmap ObjectId Driver.Doc) :=
  Mongo.findOne (λ d, bool_decide (Driver.phone d = Some ph)) c.

(** The lookup shared by the token-authenticated handlers:
    by [decoded.id] when the token has one, else by [decoded.phone]. *)
Definition findDriver (decoded : Claims) (w : World) : option (ObjectId * Driver.Doc) :=
  match c_id decoded with
  | Some id => (λ d, (id, d)) <$> Mongo.findById id (drivers w)
  | None =>
      match c_phone decoded with
      | Some ph => if Js.truthy (Some ph) then findByPhone ph (drivers w) else None
      | None => None
      end
  end.

(** [Otp.deleteMany({ phone })]. *)
Definition deleteOtps (ph : string) (c : list Otp.Doc) : list Otp.Doc :=
  filter (λ o, Otp.phone o ≠ ph) c.

(** [Otp.deleteMany({ phone, type: 'driver_registration' })]. *)
Definition deleteRegistrationOtps (ph : string) (c : list Otp.Doc) : list Otp.Doc :=
  filter (λ o, ¬ (Otp.phone o = ph ∧ Otp.otype o = "driver_registration")) c.

(** [registerPhone]: InitiatePhoneVerification. *)
Definition registerPhone (phone : option string) (now : Z) (w : World)
    : Response * World :=
  match phone with
  | Some ph =>
      if negb (Js.truthy phone) then (reply 400 "Phone number is required", w)
      else
        match findByPhone ph (drivers w) with
        | Some _ => (reply 409 "Phone number already registered", w)
        | None =>
            let otpCode := generateOTP in
            let expiresAt := (now + 5 * 60 * 1000)%Z in
            let c1 := deleteOtps ph (otps w) in
            let c2 := c1 ++ [Otp.mkDoc ph otpCode "driver_registration" expiresAt] in
            (mkResponse 200 "OTP sent successfully" (Some otpCode)
               None None None [] [] [] [] [] None,
             with_otps c2 w)
        end
  | None => (reply 400 "Phone number is required", w)
  end.

(** [resendOtp]: ResendOtp. *)
Definition resendOtp (phone : option string) (now : Z) (w : World)
    : Response * World :=
  match phone with
  | Some ph =>
      if negb (Js.truthy phone) then (reply 400 "Phone number is required", w)
      else
        let otpCode := generateOTP in
        let expiresAt := (now + 5 * 60 * 1000)%Z in
        let c1 := deleteRegistrationOtps ph (otps w) in
        let c2 := c1 ++ [Otp.mkDoc ph otpCode "driver_registration" expiresAt] in
        (mkResponse 200 "OTP resent successfully" (Some otpCode)
           None None None [] [] [] [] [] None,
         with_otps c2 w)
  | None => (reply 400 "Phone number is required", w)
  end.

(** [verifyOtp]: ConfirmPhoneVerification. *)
Definition verifyOtp (phone code : option string) (now : Z) (w : World)
    : Response * World :=
  match phone, code with
  | Some ph, Some cd =>
      if negb (Js.truthy phone) || negb (Js.truthy code)
      then (reply 400 "Phone number and OTP code are required", w)
      else
        match List.find (λ o, bool_decide (Otp.phone o = ph ∧ Otp.code o = cd
                                           ∧ Otp.otype o = "driver_registration"))
                (otps w) with
        | None => (reply 400 "Invalid OTP", w)
        | Some o =>
            if (Otp.expiresAt o <? now)%Z then (reply 400 "OTP expired", w)
            else
              let t := mkToken (mkClaims None (Some ph) None (Some "verified_phone") None)
                               "2h" in
              (mkResponse 200 "Phone verified successfully" None (Some t) None
                 (Some "complete_profile") [] [] [] [] [] None,
               with_otps (deleteRegistrationOtps ph (otps w)) w)
        end
  | _, _ => (reply 400 "Phone number and OTP code are required", w)
  end.

(** The characters excluded by the class [[^\s@]] (ASCII range): white
    space and the at sign. *)
Definition is_space_or_at (a : Ascii.ascii) : bool :=
  let n := Ascii.nat_of_ascii a in
  Nat.eqb n 32 || (Nat.leb 9 n && Nat.leb n 13) || Nat.eqb n 64.

(** The text before the first at sign and the text after it. *)
Fixpoint split_at_sign (l : list Ascii.ascii) : option (list Ascii.ascii * list Ascii.ascii) :=
  match l with
  | [] => None
  | a :: l' =>
      if Nat.eqb (Ascii.nat_of_ascii a) 64 then Some ([], l')
      else match split_at_sign l' with
           | Some (u, v) => Some (a :: u, v)
           | None => None
           end
  end.

(** [/^[^\s@]+@[^\s@]+\.[^\s@]+$/.test(email)]. *)
Definition emailRegexTest (email : string) : bool :=
  match split_at_sign (String.list_ascii_of_string email) with
  | Some (u, v) =>
      negb (Nat.eqb (length u) 0)
      && forallb (λ a, negb (is_space_or_at a)) (u ++ v)
      && existsb (λ a, Nat.eqb (Ascii.nat_of_ascii a) 46) (removelast (tail v))
  | None => false
  end.

(** Stand-ins for [bcrypt.hash] and [bcrypt.compare]; the handlers only
    rely on a password comparing equal to its own hash. *)
Definition bcrypt_hash (password : string) : string := ("$2b$" ++ password)%string.

Definition bcrypt_compare (password hash : string) : bool :=
  String.eqb (bcrypt_hash password) hash.

(** [completeRegistration]: CompleteBasicInfo. *)
Definition completeRegistration (auth : Authorization)
    (firstName lastName email password : option string) (w : World)
    : Response * World :=
  if negb (Js.truthy firstName) || negb (Js.truthy lastName)
     || negb (Js.truthy email) || negb (Js.truthy password)
  then (reply 400 "First name, last name, email, and password are required", w)
  else
    let fn := default "" firstName in
    let ln := default "" lastName in
    let em := default "" email in
    let pw := default "" password in
    if negb (emailRegexTest em) then (reply 400 "Invalid email format", w)
    else if Nat.ltb (String.length pw) 6
    then (reply 400 "Password must be at least 6 characters", w)
    else
      match auth with
      | NoToken => (reply 401 "Temporary token required", w)
      | BadToken => (reply 401 "Invalid or expired temporary token", w)
      | Bearer decoded =>
          let existingDriver : option (ObjectId * Driver.Doc) :=
            match c_id decoded with
            | Some id => (λ d, (id, d)) <$> Mongo.findById id (drivers w)
            | None => None
            end in
          let phone :=
            match existingDriver with
            | Some (_, d) => Driver.phone d
            | None => c_phone decoded
            end in
          if negb (Js.truthy phone)
          then (reply 400 "Phone number not found in token", w)
          else
            match Mongo.findOneExcept (fst <$> existingDriver)
                    (λ d, bool_decide (Driver.email d = Some em)) (drivers w) with
            | Some _ => (reply 409 "Email already registered", w)
            | None =>
                let nm := (fn ++ " " ++ ln)%string in
                let '(id, d, c) :=
                  match existingDriver with
                  | Some (id, d0) =>
                      let isPasswordSame :=
                        bcrypt_compare pw (default "" (Driver.password d0)) in
                      let pw' := if isPasswordSame then Driver.password d0
                                 else Some (bcrypt_hash pw) in
                      let d := Driver.set_basic_info (Some nm) (Some fn) (Some ln)
                                 (Some em) pw' d0 in
                      (id, d, Mongo.save id d (drivers w))
                  | None =>
                      let d := Driver.mkDoc (Some nm) (Some fn) (Some ln) (Some em)
                                 phone (Some (bcrypt_hash pw)) false
                                 (Some "basic_info_completed") None None None None
                                 false 0%Z in
                      let '(id, c) := Mongo.create d (drivers w) in
                      (id, d, c)
                  end in
                let nextStepToken :=
                  mkToken (mkClaims (Some id) (Driver.phone d) (Driver.email d)
                             (Some "basic_info_completed") None) "2h" in
                let w1 := with_drivers c w in
                let w2 := notify (NotificationService.notifyProfileUpdated id
                                    ["name"; "email"]) w1 in
                (mkResponse (match existingDriver with Some _ => 200 | None => 201 end)
                   "Basic registration completed successfully" None
                   (Some nextStepToken) None (Some "setup_earn_type")
                   [] [] [] [] (getNextAllowedActions d) (Some (id, d)),
                 w2)
            end
      end.

Definition validEarnTypes : list string := ["car"; "scooter"; "bicycle"; "truck"].

(** [setupEarnType]: SetupEarnType. *)
Definition setupEarnType (auth : Authorization)
    (earnType city referralCode : option string) (w : World)
    : Response * World :=
  if negb (Js.truthy earnType) || negb (Js.truthy city)
  then (reply 400 "Earn type and city are required", w)
  else if negb (Js.includes validEarnTypes (default "" earnType))
  then (reply 400 "Invalid earn type. Must be one of: car, scooter, bicycle, truck", w)
  else
    match auth with
    | NoToken => (reply 401 "Temporary token required", w)
    | BadToken => (reply 401 "Invalid or expired temporary token", w)
    | Bearer decoded =>
        match findDriver decoded w with
        | None => (reply 404 "Driver not found", w)
        | Some (id, d0) =>
            let d := Driver.set_earn_type earnType city
                       (if Js.truthy referralCode then referralCode else None) d0 in
            let w1 := with_drivers (Mongo.save id d (drivers w)) w in
            let documentToken :=
              mkToken (mkClaims (Some id) (Driver.phone d) (Driver.email d)
                         (Some "earn_type_completed") None) "2h" in
            let w2 := notify (NotificationService.notifyProfileUpdated id
                                ["earnType"; "city"]) w1 in
            (mkResponse 200 "Earn type setup completed successfully" None
               (Some documentToken) None (Some "upload_documents")
               [] [] [] [] (getNextAllowedActions d) (Some (id, d)),
             w2)
        end
    end.

(** [req.file], as the upload middleware leaves it. *)
Record File := mkFile {
  f_filename : option string;
  f_originalname : option string;
  f_mimetype : option string;
  f_size : Z;
  f_path : option string;
  f_public_id : option string
}.

Definition validDocTypes : list string :=
  ["driversLicense"; "profilePhoto"; "socialInsuranceNumber";
   "vehicleRegistration"; "vehicleInsurance"].

(** [req.file.public_id || req.file.filename]. *)
Definition file_publicId (f : File) : option string :=
  if Js.truthy (f_public_id f) then f_public_id f else f_filename f.

(** [uploadDocument]: UploadDocument.  [saveOk] tells whether
    [driver.save()] resolves; when it rejects, control passes to the
    handler's [catch] block.  That block is the only place where
    [NotificationService.notifyDocumentUploaded] is called, and it names
    [driver], a [let] of the [try] block that is not in scope there: the
    call raises a ReferenceError, which the inner [try]/[catch] swallows,
    so nothing reaches the sink on that path either. *)
Definition uploadDocument (auth : Authorization) (documentType : string)
    (file : option File) (now : Z) (saveOk : bool) (w : World)
    : Response * World :=
  if negb (Js.includes validDocTypes documentType)
  then (reply 400 "Invalid document type", w)
  else
    match file with
    | None => (reply 400 "No file uploaded", w)
    | Some f =>
        match auth with
        | NoToken => (reply 401 "Temporary token required", w)
        | BadToken => (reply 401 "Invalid or expired temporary token", w)
        | Bearer decoded =>
            match findDriver decoded w with
            | None => (reply 404 "Driver not found", w)
            | Some (id, d0) =>
                let warnings :=
                  (if negb (Js.truthy (Driver.name d0)) || negb (Js.truthy (Driver.email d0))
                   then ["Consider completing your basic information first for a better experience"]
                   else [])
                  ++ (if negb (Js.truthy (Driver.earnType d0)) || negb (Js.truthy (Driver.city d0))
                      then ["Consider setting up your earn type and city for a complete profile"]
                      else []) in
                let docs0 := default ∅ (Driver.documents d0) in
                let publicId := file_publicId f in
                let w1 :=
                  match docs0 !! documentType with
                  | Some old =>
                      match Driver.publicId old with
                      | Some pid => if Js.truthy (Some pid) then destroy pid w else w
                      | None => w
                      end
                  | None => w
                  end in
                match f_path f with
                | Some path =>
                    if negb (Js.truthy (Some path))
                    then (reply 500 "File upload to cloud storage failed", w1)
                    else
                      let rec := Driver.mkDocument (f_filename f) (f_originalname f)
                                   (f_mimetype f) (f_size f) path publicId now in
                      let d1 := Driver.set_documents (<[documentType := rec]> docs0) d0 in
                      let currentStep := getCurrentRegistrationStep d1 (c_step decoded) in
                      let d2 :=
                        if String.eqb currentStep "verified_phone"
                           || String.eqb currentStep "basic_info_completed"
                           || String.eqb currentStep "earn_type_completed"
                        then Driver.set_registrationStep "documents_uploading" d1
                        else d1 in
                      if saveOk then
                        let w2 := with_drivers (Mongo.save id d2 (drivers w1)) w1 in
                        let updatedToken :=
                          mkToken (mkClaims (Some id) (Driver.phone d2) (Driver.email d2)
                                     (Some "documents_uploading") None) "2h" in
                        (mkResponse 200 "Document uploaded successfully" None
                           (Some updatedToken) None None [] []
                           (Driver.uploadedDocs d2) warnings
                           (getNextAllowedActions d2) None,
                         w2)
                      else
                        let w2 :=
                          match publicId with
                          | Some pid => if Js.truthy (Some pid) then destroy pid w1 else w1
                          | None => w1
                          end in
                        (reply 500 "Failed to upload document", w2)
                | None => (reply 500 "File upload to cloud storage failed", w1)
                end
            end
        end
    end.

(** The [errors] collected by [completeFullRegistration]. *)
Definition finalizeErrors (d : Driver.Doc) : list string :=
  (if negb (Js.truthy (Driver.name d)) || negb (Js.truthy (Driver.email d))
      || negb (Js.truthy (Driver.firstName d)) || negb (Js.truthy (Driver.lastName d))
   then ["Basic information incomplete (name, email required)"] else [])
  ++ (if negb (Js.truthy (Driver.earnType d)) || negb (Js.truthy (Driver.city d))
      then ["Earn type and city must be set"] else [])
  ++ (if Nat.ltb 0 (length (missingDocs d))
      then [("Missing required documents: " ++ String.concat ", " (missingDocs d))%string]
      else []).

(** [completeFullRegistration]: FinalizeRegistration. *)
Definition completeFullRegistration (auth : Authorization) (w : World)
    : Response * World :=
  match auth with
  | NoToken => (reply 401 "Temporary token required", w)
  | BadToken => (reply 401 "Invalid or expired temporary token", w)
  | Bearer decoded =>
      match findDriver decoded w with
      | None => (reply 404 "Driver not found", w)
      | Some (id, d0) =>
          let errors := finalizeErrors d0 in
          if Nat.ltb 0 (length errors)
          then (mkResponse 400 "Cannot complete registration - requirements not met"
                  None None None None errors (missingDocs d0) [] []
                  (getNextAllowedActions d0) None,
                w)
          else
            let d := Driver.set_completed d0 in
            let w1 := with_drivers (Mongo.save id d (drivers w)) w in
            let mainToken :=
              mkToken (mkClaims (Some id) (Driver.phone d) (Driver.email d)
                         None (Some "driver")) "7d" in
            let w2 := notify (NotificationService.notifyRegistrationCompleted id) w1 in
            let w3 := notify (NotificationService.notifyVerificationApproved id) w2 in
            (mkResponse 200 "Registration completed successfully! Welcome to Errand."
               None None (Some mainToken) None [] [] [] [] [] (Some (id, d)),
             w3)
      end
  end.

End DriverRegistrationController.

(** ** The vocabulary of the statements *)

Module Spec.
Import Delivery DeliveryController.

#[global] Instance Status_eq_dec : EqDecision Status.
Proof. solve_decision. Defined.

#[global] Instance DriverRef_eq_dec : EqDecision DriverRef.
Proof. solve_decision. Defined.

(** The driver id of the delivery is unset: null or absent. *)
Definition unset (d : Doc) : Prop :=
  driverId d = Null ∨ driverId d = Absent.

(** The delivery is attached to the driver with a status in
    {accepted, in-transit}. *)
Definition activeWith (driver : ObjectId) (d : Doc) : Prop :=
  driverId d = Ref driver ∧ (status d = Accepted ∨ status d = InTransit).

(** The number of deliveries with driverId = driver and status in
    {accepted, in-transit}. *)
Definition activeCount (driver : ObjectId) (w : World) : nat :=
  length (filter (λ kv, activeWith driver kv.2) (map_to_list (deliveries w))).

(** The driver holds an accepted or in-transit delivery. *)
Definition holdsActive (driver : ObjectId) (w : World) : Prop :=
  ∃ i d, deliveries w !! i = Some d ∧ activeWith driver d.

(** Single active delivery. *)
Definition singleActive (w : World) : Prop :=
  ∀ driver, activeCount driver w ≤ 1.

(** The transitions that the three conditional updates apply to one
    delivery, in a state [w]. *)
Inductive transition (w : World) : Doc → Doc → Prop :=
| claim_step driver now d :
    ¬ holdsActive driver w → status d = Upcoming → unset d →
    transition w d (claimUpdate driver now d)
| start_step driver now d :
    driverId d = Ref driver → status d = Accepted →
    transition w d (startUpdate now d)
| complete_step driver now d :
    driverId d = Ref driver → status d = InTransit →
    transition w d (completeUpdate now d).

(** What a successful CompleteDelivery hands to the notification sink. *)
Definition completionEvents (driver id : ObjectId) (d : Doc)
    : list NotificationService.Notification :=
  NotificationService.mkNotification driver "delivery_completed"
    (NotificationService.EarningData id (price d)) "high"
  :: (if (0 <? price d)%Z
      then [NotificationService.mkNotification driver "payment_success"
              (NotificationService.PaymentData (price d) "delivery completion") "high"]
      else []).


(** The delivery exists and has left the status upcoming. *)
Definition claimed (id : ObjectId) (w : World) : Prop :=
  ∃ d, deliveries w !! id = Some d ∧ status d ≠ Upcoming.


(** Sample states, used to instantiate the statements. *)
Definition parcel (st : Status) (dr : DriverRef) (amount created : Z) : Doc :=
  mkDoc 9%N dr amount st None None None created created.

(** Two unclaimed upcoming deliveries. *)
Definition two_upcoming : World :=
  mkWorld (<[2%N := parcel Upcoming Absent 0 200]>
             (<[1%N := parcel Upcoming Null 25 100]> ∅)) ∅ [] [] [].

(** Driver 7 holds delivery 1; delivery 2 is upcoming and unclaimed. *)
Definition one_held : World :=
  mkWorld (<[2%N := parcel Upcoming Null 30 200]>
             (<[1%N := parcel Accepted (Ref 7%N) 25 100]> ∅)) ∅ [] [] [].

(** An unclaimed delivery that was cancelled, and an upcoming one. *)
Definition one_cancelled : World :=
  mkWorld (<[2%N := parcel Upcoming Null 30 200]>
             (<[1%N := parcel Cancelled Null 25 300]> ∅)) ∅ [] [] [].

End Spec.

Module RegSpec.
Import DriverRegistrationController.

(** A string path of a record is set: present and not empty. *)
Definition isSet (s : option string) : Prop :=
  ∃ v, s = Some v ∧ v ≠ "".

(** The documents map of the driver contains the key. *)
Definition hasDocument (key : string) (d : Driver.Doc) : Prop :=
  ∃ docs, Driver.documents d = Some docs ∧ is_Some (docs !! key).

(** The three prerequisites that [completeFullRegistration] re-validates. *)
Definition basicInfo (d : Driver.Doc) : Prop :=
  isSet (Driver.name d) ∧ isSet (Driver.email d)
  ∧ isSet (Driver.firstName d) ∧ isSet (Driver.lastName d).

Definition earnSetup (d : Driver.Doc) : Prop :=
  isSet (Driver.earnType d) ∧ isSet (Driver.city d).

Definition requiredDocuments (d : Driver.Doc) : Prop :=
  hasDocument "driversLicense" d ∧ hasDocument "profilePhoto" d.

(** The query of [Otp.deleteMany({ phone, type: 'driver_registration' })]. *)
Definition registrationCodeOf (ph : string) (o : Otp.Doc) : Prop :=
  Otp.phone o = ph ∧ Otp.otype o = "driver_registration".

(** Some driver record has this phone number. *)
Definition registeredPhone (ph : string) (w : World) : Prop :=
  ∃ id d, drivers w !! id = Some d ∧ Driver.phone d = Some ph.

(** The claims of the token that a response hands to the client. *)
Definition issued (r : Response) : option Claims :=
  match tempToken r, token r with
  | Some t, _ => Some (claims t)
  | None, Some t => Some (claims t)
  | None, None => None
  end.

(** The request header that presents the token of a response. *)
Definition present (r : Response) : Authorization :=
  match issued r with Some c => Bearer c | None => NoToken end.

(** The effective registration step of driver [id] in state [w] under a
    token with step claim [tokenStep], and its rank in the fixed order. *)
Definition effectiveStep (id : ObjectId) (tokenStep : option string) (w : World)
    : option string :=
  (λ d, getCurrentRegistrationStep d tokenStep) <$> drivers w !! id.

Definition effectiveRank (id : ObjectId) (tokenStep : option string) (w : World) : Z :=
  stepIndex (effectiveStep id tokenStep w).

(** The step claim of the token of a response. *)
Definition issuedStep (r : Response) : option string :=
  issued r ≫= c_step.

(** Sample data. *)
Definition empty_world : World := mkWorld ∅ ∅ [] [] [].

Definition scan (nm : string) : Driver.Document :=
  Driver.mkDocument (Some nm) (Some nm) (Some "image/png") 1024
    ("https://res.cloudinary.com/driver-documents/" ++ nm)%string (Some nm) 900.

Definition photo : File :=
  mkFile (Some "profilePhoto-15550001-1") (Some "me.png") (Some "image/png") 2048
         (Some "https://res.cloudinary.com/driver-documents/me.png") None.

(** A driver created by [driverController.register], which stores [name]
    but no name parts, with everything else that finalisation asks for. *)
Definition legacy_driver : Driver.Doc :=
  Driver.mkDoc (Some "Ann Lee") None None (Some "ann@example.org")
    (Some "+15550001") (Some "$2b$secret1") false (Some "documents_uploading")
    (Some "car") (Some "Lagos") None
    (Some (<["profilePhoto" := scan "photo"]> (<["driversLicense" := scan "licence"]> ∅)))
    false 0.

(** The same driver with its name parts, as [completeRegistration]
    stores them. *)
Definition ready_driver : Driver.Doc :=
  Driver.mkDoc (Some "Ann Lee") (Some "Ann") (Some "Lee") (Some "ann@example.org")
    (Some "+15550001") (Some "$2b$secret1") false (Some "documents_uploading")
    (Some "car") (Some "Lagos") None
    (Some (<["profilePhoto" := scan "photo"]> (<["driversLicense" := scan "licence"]> ∅)))
    false 0.

Definition with_driver (d : Driver.Doc) : World :=
  mkWorld ∅ (<[1%N := d]> ∅) [] [] [].

(** A continuation token of driver 1. *)
Definition continuation (step : string) : Claims :=
  mkClaims (Some 1%N) (Some "+15550001") (Some "ann@example.org") (Some step) None.

End RegSpec.

(** ** The remaining queries of controllers/deliveryController.js *)

Module DeliveryDirectory.
Import Delivery DeliveryController.

(** [getActiveDelivery]: GetActiveDelivery.  [driverId] is [None] when the
    request carries no driver id.  The two branches of the handler's
    [$or] ([driverId] and [driverId.toString()]) cast to the same id. *)
Definition getActiveDelivery (driverId : option ObjectId) (w : World) : Response :=
  match driverId with
  | None => mkResponse 401 false "Driver not authenticated" None
  | Some driver =>
      match Mongo.findOne (λ d, (driverId_is driver d || driverId_is driver d)
                                && status_active d) (deliveries w) with
      | None => mkResponse 200 true "No active delivery found" None
      | Some d => mkResponse 200 true "" (Some d)
      end
  end.

(** [parseInt(req.query.x) || dflt]: [None] is NaN (absent or not a
    number); NaN and 0 give the default. *)
Definition parseIntOr (x : option Z) (dflt : Z) : Z :=
  match x with
  | Some z => if (z =? 0)%Z then dflt else z
  | None => dflt
  end.

(** [Math.ceil(total / limit)] for a non-zero [limit]. *)
Definition ceilDiv (total limit : Z) : Z := (- ((- total) / limit))%Z.

Record History := mkHistory {
  h_code : nat;
  h_deliveries : list (ObjectId * Doc);
  currentPage : Z;
  totalPages : Z;
  totalDeliveries : Z
}.

(** [getDriverDeliveryHistory]: ListHistory.  A negative [skip] makes the
    store reject the query, which the handler answers with 500; a negative
    [limit] is taken by the driver as its absolute value. *)
Definition getDriverDeliveryHistory (driverId : ObjectId) (page limit : option Z)
    (w : World) : History :=
  let page := parseIntOr page 1 in
  let limit := parseIntOr limit 10 in
  let skip := ((page - 1) * limit)%Z in
  if (skip <? 0)%Z then mkHistory 500 [] 0 0 0
  else
    let all := Mongo.sortDesc createdAt (Mongo.find (driverId_is driverId) (deliveries w)) in
    let total := Z.of_nat (Mongo.countDocuments (driverId_is driverId) (deliveries w)) in
    mkHistory 200 (take (Z.abs_nat limit) (drop (Z.to_nat skip) all))
              page (ceilDiv total limit) total.

End DeliveryDirectory.

Module Lifecycle.
Import Delivery DeliveryController Spec.

(** The order in which the three conditional updates move a status;
    pending and cancelled are left by none of them. *)
Definition forward (s s' : Status) : Prop :=
  match s, s' with
  | Upcoming, (Upcoming | Accepted | InTransit | Completed) => True
  | Accepted, (Accepted | InTransit | Completed) => True
  | InTransit, (InTransit | Completed) => True
  | Completed, Completed => True
  | Pending, Pending => True
  | Cancelled, Cancelled => True
  | _, _ => False
  end.

(** How a later version [d'] of a delivery relates to an earlier [d]. *)
Record evolves (d d' : Doc) : Prop := mkEvolves {
  ev_status : forward (status d) (status d');
  ev_sender : senderId d' = senderId d;
  ev_price : price d' = price d;
  ev_created : createdAt d' = createdAt d;
  ev_driver : ∀ x, driverId d = Ref x → driverId d' = Ref x;
  ev_accepted : status d ≠ Upcoming → acceptedAt d' = acceptedAt d;
  ev_started : status d ≠ Upcoming → status d ≠ Accepted → startedAt d' = startedAt d;
  ev_completed : status d ≠ Upcoming → status d ≠ Accepted → status d ≠ InTransit →
                 d' = d
}.

(** The state after the responses of a claim, a start and a complete. *)
Definition after_claim driver id t w := (acceptDelivery driver (WellFormed id) t w).2.
Definition after_start driver id t w := (startDelivery driver (WellFormed id) t w).2.
Definition after_complete driver id t w := (completeDelivery driver (WellFormed id) t w).2.

End Lifecycle.

Module Ledger.
Import Delivery DeliveryController Spec DeliveryDirectory.

(** The number of deliveries attached to the driver, of any status. *)
Definition attachedCount (x : ObjectId) (w : World) : Z :=
  Z.of_nat (length (filter (λ kv : ObjectId * Doc, driverId kv.2 = Ref x)
                           (map_to_list (deliveries w)))).

(** The driver's lifetime delivery counter. *)
Definition counter (x : ObjectId) (w : World) : Z :=
  default 0%Z (Driver.totalDeliveries <$> drivers w !! x).

(** The whole history of a driver: every delivery attached to the driver,
    newest first. *)
Definition fullHistory (x : ObjectId) (w : World) : list (ObjectId * Doc) :=
  Mongo.sortDesc createdAt (Mongo.find (driverId_is x) (deliveries w)).

(** Driver 7 has a record with a lifetime count of 3; two deliveries are
    upcoming. *)
Definition fleet : World :=
  mkWorld (deliveries two_upcoming)
          (<[7%N := Driver.set_registrationStep "completed"
                      (Driver.inc_totalDeliveries
                         (Driver.inc_totalDeliveries
                            (Driver.inc_totalDeliveries RegSpec.ready_driver)))]> ∅)
          [] [] [].

(** Page [k] (counted from 1) of the history, [n] entries a page. *)
Definition historyPage (x : ObjectId) (n k : nat) (w : World) : list (ObjectId * Doc) :=
  h_deliveries (getDriverDeliveryHistory x (Some (Z.of_nat k)) (Some (Z.of_nat n)) w).

End Ledger.

(** ** The type enum of models/Notification.js *)

Module NotificationSchema.

(** The [enum] of the [type] path. *)
Definition typeEnum : list string :=
  ["delivery_available"; "delivery_accepted"; "delivery_started";
   "delivery_completed"; "delivery_cancelled"; "delivery_photo_required";
   "registration_completed"; "profile_updated"; "document_uploaded";
   "document_verified"; "verification_pending"; "verification_approved";
   "verification_rejected";
   "payment_success"; "payment_failed"; "account_suspended";
   "account_reactivated"; "new_feature"; "maintenance_notice";
   "new_message"; "conversation_started";
   "general"].

(** [NotificationService.createNotification] inside a handler's
    [try]/[catch], with the schema's validation of [type]: a record whose
    type is not in the enum is refused by [Notification.create], the
    helper rethrows and the handler swallows the error. *)
Definition createValidated (u : ObjectId) (ty : string)
    (d : NotificationService.Data) (prio : string)
    (sink : list NotificationService.Notification)
    : list NotificationService.Notification :=
  if Js.includes typeEnum ty
  then NotificationService.createNotification u ty d prio sink
  else sink.

End NotificationSchema.

(** ** The photo handlers of controllers/deliveryController.js *)

Module DeliveryPhotos.
Import Delivery DeliveryController.

(** One entry of the [photos] sub-record of a delivery. *)
Record Photo := mkPhoto {
  p_url : option string;
  p_publicId : option string;
  p_uploadedAt : Z;
  p_filename : option string
}.

(** The [photos] sub-record: a slot is [None] while no photo was stored
    in it. *)
Record Photos := mkPhotos {
  dropOff : option Photo;
  escrow : option Photo
}.

(** The persisted state with the [photos] path of every delivery, kept
    beside the paths of [Delivery.Doc] under the same [_id]; a delivery
    without an entry has no photos. *)
Record Store := mkStore {
  world : World;
  photos : gmap ObjectId Photos
}.

Inductive Kind := DropOff | Escrow.

Record Response := mkResponse {
  code : nat;
  success : bool;
  message : string;
  photo_url : option string;
  photo_uploadedAt : option Z;
  delivery_status : option Status
}.

Definition refuse (c : nat) (msg : string) : Response :=
  mkResponse c false msg None None None.

(** The [status] condition of the handler's [findOne]: in-transit for a
    drop-off photo, accepted or in-transit for an escrow photo. *)
Definition statusAllows (k : Kind) (d : Doc) : bool :=
  match k with
  | DropOff => status_eqb (status d) InTransit
  | Escrow => status_active d
  end.

Definition slot (k : Kind) (ps : Photos) : option Photo :=
  match k with DropOff => dropOff ps | Escrow => escrow ps end.

Definition set_slot (k : Kind) (ph : Photo) (ps : Photos) : Photos :=
  match k with
  | DropOff => mkPhotos (Some ph) (escrow ps)
  | Escrow => mkPhotos (dropOff ps) (Some ph)
  end.

Definition notFoundMessage (k : Kind) : string :=
  match k with
  | DropOff => "Delivery not found or not in transit"
  | Escrow => "Delivery not found or not in accepted/in-transit status"
  end.

Definition uploadedMessage (k : Kind) : string :=
  match k with
  | DropOff => "Drop-off photo uploaded successfully"
  | Escrow => "Escrow photo uploaded successfully"
  end.

Definition destroyIn (publicId : string) (s : Store) : Store :=
  mkStore (destroy publicId (world s)) (photos s).

(** The common body of [uploadDropOffPhoto] and [uploadEscrowPhoto], which
    differ in the status condition, the slot and the messages. *)
Definition uploadPhoto (k : Kind) (driverId : ObjectId) (deliveryId : IdParam)
    (file : option DriverRegistrationController.File) (now : Z) (s : Store)
    : Response * Store :=
  match deliveryId with
  | Malformed => (refuse 400 "Invalid delivery ID format", s)
  | WellFormed id =>
      match file with
      | None => (refuse 400 "No photo uploaded", s)
      | Some f =>
          let found :=
            match deliveries (world s) !! id with
            | Some d => if driverId_is driverId d && statusAllows k d
                        then Some d else None
            | None => None
            end in
          match found with
          | None =>
              let s1 :=
                match DriverRegistrationController.f_public_id f with
                | Some pid => if Js.truthy (Some pid) then destroyIn pid s else s
                | None => s
                end in
              (refuse 404 (notFoundMessage k), s1)
          | Some d =>
              let ps := default (mkPhotos None None) (photos s !! id) in
              let s1 :=
                match slot k ps ≫= p_publicId with
                | Some old => if Js.truthy (Some old) then destroyIn old s else s
                | None => s
                end in
              let ph := mkPhoto (DriverRegistrationController.f_path f)
                          (DriverRegistrationController.file_publicId f) now
                          (DriverRegistrationController.f_originalname f) in
              let s2 := mkStore (world s1) (<[id := set_slot k ph ps]> (photos s1)) in
              let s3 := mkStore
                          (notify (NotificationSchema.createValidated driverId
                                     "delivery_photo_uploaded"
                                     (NotificationService.DeliveryData id) "medium")
                                  (world s2))
                          (photos s2) in
              (mkResponse 200 true (uploadedMessage k)
                 (DriverRegistrationController.f_path f) (Some now) (Some (status d)),
               s3)
          end
      end
  end.

(** [uploadDropOffPhoto]. *)
Definition uploadDropOffPhoto := uploadPhoto DropOff.

(** [uploadEscrowPhoto]. *)
Definition uploadEscrowPhoto := uploadPhoto Escrow.

(** A file as the photo middleware leaves it, with and without a
    [public_id]. *)
Definition snapshot (nm : string) : DriverRegistrationController.File :=
  DriverRegistrationController.mkFile (Some nm) (Some "drop.jpg") (Some "image/jpeg")
    4096 (Some ("https://res.cloudinary.com/delivery-photos/" ++ nm)%string)
    (Some nm).

Definition snapshot_without_id (nm : string) : DriverRegistrationController.File :=
  DriverRegistrationController.mkFile (Some nm) (Some "drop.jpg") (Some "image/jpeg")
    4096 (Some ("https://res.cloudinary.com/delivery-photos/" ++ nm)%string)
    None.

(** Driver 7 is on the road with delivery 1. *)
Definition on_the_road : Store :=
  mkStore (mkWorld (<[1%N := mkDoc 9%N (Ref 7%N) 25 InTransit (Some 500%Z)
                                 (Some 600%Z) None 100 600]> ∅) ∅ [] [] [])
          ∅.

End DeliveryPhotos.

Module PhotoSpec.
Import Delivery DeliveryController DeliveryPhotos.

(** The statuses in which a photo of the kind may be uploaded. *)
Definition allowedStatus (k : Kind) (st : Status) : Prop :=
  match k with
  | DropOff => st = InTransit
  | Escrow => st = Accepted ∨ st = InTransit
  end.

(** The caller may upload a photo of the kind for the delivery. *)
Definition mayUpload (k : Kind) (driver id : ObjectId) (s : Store) : Prop :=
  ∃ d, deliveries (world s) !! id = Some d ∧ driverId d = Ref driver
       ∧ allowedStatus k (status d).

(** The photo stored for the delivery in the slot of the kind. *)
Definition slotOf (k : Kind) (id : ObjectId) (s : Store) : option Photo :=
  match photos s !! id with
  | Some ps => slot k ps
  | None => None
  end.

(** The public id of the photo stored in a slot, when it has one. *)
Definition storedBlob (k : Kind) (id : ObjectId) (s : Store) : list string :=
  match slotOf k id s ≫= p_publicId with
  | Some old => if Js.truthy (Some old) then [old] else []
  | None => []
  end.

(** The record that an upload of [f] at [now] stores. *)
Definition photoOf (f : DriverRegistrationController.File) (now : Z) : Photo :=
  mkPhoto (DriverRegistrationController.f_path f)
          (DriverRegistrationController.file_publicId f) now
          (DriverRegistrationController.f_originalname f).

Definition otherKind (k : Kind) : Kind :=
  match k with DropOff => Escrow | Escrow => DropOff end.

End PhotoSpec.

(** ** The remaining handlers of controllers/driverRegistrationController.js
       and middleware/auth.js *)

Module DriverAccount.
Import DriverRegistrationController.

(** The answer of [getRegistrationStatus]. *)
Record Status := mkStatus {
  s_code : nat;
  s_registrationStep : option string;
  s_progress : Z;
  s_completedSteps : list string;
  s_uploaded : list string;
  s_missing : list string;
  s_allowedActions : list string
}.

Definition noStatus (c : nat) : Status := mkStatus c None 0 [] [] [] [].

(** [getRegistrationStatus]: GetStatus. *)
Definition getRegistrationStatus (auth : Authorization) (w : World) : Status :=
  match auth with
  | NoToken | BadToken => noStatus 401
  | Bearer decoded =>
      match findDriver decoded w with
      | None => noStatus 404
      | Some (_, d) =>
          let uploadedDocuments := Driver.uploadedDocs d in
          let hasAllRequiredDocs :=
            forallb (Js.includes uploadedDocuments) requiredDocs in
          let milestones :=
            [(Js.truthy (c_phone decoded) || Js.truthy (Driver.phone d), "verified_phone");
             (Js.truthy (Driver.name d) && Js.truthy (Driver.email d)
              && Js.truthy (Driver.firstName d) && Js.truthy (Driver.lastName d),
              "basic_info_completed");
             (Js.truthy (Driver.earnType d) && Js.truthy (Driver.city d),
              "earn_type_completed");
             (Nat.ltb 0 (length uploadedDocuments), "documents_uploading");
             (Driver.verified d
              || (hasAllRequiredDocs && Js.truthy (Driver.earnType d)
                  && Js.truthy (Driver.city d) && Js.truthy (Driver.name d)),
              "completed")] in
          let completedSteps := (List.filter fst milestones).*2 in
          let progress := (20 * Z.of_nat (length completedSteps))%Z in
          let currentStep :=
            if Js.truthy (Driver.registrationStep d) then Driver.registrationStep d
            else if Js.truthy (c_step decoded) then c_step decoded
            else Some "verified_phone" in
          mkStatus 200 currentStep (Z.min progress 100) completedSteps
            uploadedDocuments (missingDocs d) (getNextAllowedActions d)
      end
  end.

(** [deleteDocument]: DeleteDocument.  Of the response only status and
    message are kept: its [uploadedDocuments] and [allowedActions] are
    computed from the in-memory object after the assignment of
    [undefined], not from what is persisted. *)
Definition deleteDocument (auth : Authorization) (documentType : string) (w : World)
    : Response * World :=
  if negb (Js.includes validDocTypes documentType)
  then (reply 400 "Invalid document type", w)
  else
    match auth with
    | NoToken => (reply 401 "Temporary token required", w)
    | BadToken => (reply 401 "Invalid or expired temporary token", w)
    | Bearer decoded =>
        match findDriver decoded w with
        | None => (reply 404 "Driver not found", w)
        | Some (id, d) =>
            match Driver.documents d with
            | None => (reply 404 "Document not found", w)
            | Some docs =>
                match docs !! documentType with
                | None => (reply 404 "Document not found", w)
                | Some old =>
                    let w1 :=
                      match Driver.publicId old with
                      | Some pid => if Js.truthy (Some pid) then destroy pid w else w
                      | None => w
                      end in
                    let d1 := Driver.set_documents (delete documentType docs) d in
                    (reply 200 "Document deleted successfully",
                     with_drivers (Mongo.save id d1 (drivers w1)) w1)
                end
            end
        end
    end.

(** The body of [updateProfile]; [referralCode] and [available] are set
    when they are not [undefined], so [b_referralCode = Some None] is an
    explicit [null]. *)
Record ProfileBody := mkProfileBody {
  b_firstName : option string;
  b_lastName : option string;
  b_email : option string;
  b_earnType : option string;
  b_city : option string;
  b_referralCode : option (option string);
  b_available : option bool
}.

Definition set_profile (nm fn ln em et ct rc : option string) (av : bool)
    (d : Driver.Doc) : Driver.Doc :=
  Driver.mkDoc nm fn ln em (Driver.phone d) (Driver.password d) (Driver.verified d)
    (Driver.registrationStep d) et ct rc (Driver.documents d) av
    (Driver.totalDeliveries d).

(** [updateProfile].  The fields are assigned on the loaded document in
    the order of the handler; the two early returns (409, 400) come before
    [driver.save()], so nothing of what was assigned is persisted. *)
Definition updateProfile (auth : Authorization) (b : ProfileBody) (w : World)
    : Response * World :=
  match auth with
  | NoToken => (reply 401 "Token required", w)
  | BadToken => (reply 401 "Invalid or expired token", w)
  | Bearer decoded =>
      match findDriver decoded w with
      | None => (reply 404 "Driver not found", w)
      | Some (id, d) =>
          let fn1 := if Js.truthy (b_firstName b) then b_firstName b
                     else Driver.firstName d in
          let nm1 := if Js.truthy (b_firstName b) && Js.truthy (b_lastName b)
                     then Some (default "" (b_firstName b) ++ " "
                                ++ default "" (b_lastName b))%string
                     else Driver.name d in
          let ln2 := if Js.truthy (b_lastName b) then b_lastName b
                     else Driver.lastName d in
          let nm2 := if Js.truthy (b_lastName b) && Js.truthy fn1
                     then Some (default "" fn1 ++ " "
                                ++ default "" (b_lastName b))%string
                     else nm1 in
          let emailTaken :=
            if Js.truthy (b_email b)
            then match Mongo.findOneExcept (Some id)
                         (λ x, bool_decide (Driver.email x = b_email b)) (drivers w) with
                 | Some _ => true
                 | None => false
                 end
            else false in
          if emailTaken then (reply 409 "Email already registered", w)
          else
            let em := if Js.truthy (b_email b) then b_email b else Driver.email d in
            if Js.truthy (b_earnType b)
               && negb (Js.includes validEarnTypes (default "" (b_earnType b)))
            then (reply 400 "Invalid earn type. Must be one of: car, scooter, bicycle, truck", w)
            else
              let et := if Js.truthy (b_earnType b) then b_earnType b
                        else Driver.earnType d in
              let ct := if Js.truthy (b_city b) then b_city b else Driver.city d in
              let rc := match b_referralCode b with
                        | Some v => v
                        | None => Driver.referralCode d
                        end in
              let av := default (Driver.available d) (b_available b) in
              let d1 := set_profile nm2 fn1 ln2 em et ct rc av d in
              let isDriver := bool_decide (c_type decoded = Some "driver") in
              let updatedToken :=
                mkToken (mkClaims (Some id) (Driver.phone d1) (Driver.email d1) None
                           (if Js.truthy (c_type decoded) then c_type decoded
                            else Some "driver"))
                        (if isDriver then "7d" else "2h") in
              (mkResponse 200 "Profile updated successfully" None None
                 (Some updatedToken) None [] [] [] [] (getNextAllowedActions d1)
                 (Some (id, d1)),
               with_drivers (Mongo.save id d1 (drivers w)) w)
      end
  end.

(** The [Authorization] header as middleware/auth.js reads it: absent,
    without a second word, a token that [jwt.verify] rejects, or a
    verified token. *)
Inductive Header := Absent | NoSecondWord | Rejected | Verified (decoded : Claims).

Inductive AuthResult :=
| Denied (msg : string)
| Next (user : Claims) (driver : option Driver.Doc).

(** [middleware/auth.js]; [path] is [req.path]. *)
Definition authMiddleware (path : string) (h : Header) (w : World) : AuthResult :=
  match h with
  | Absent => Denied "No token, authorization denied"
  | NoSecondWord => Denied "Invalid token format"
  | Rejected => Denied "Token is not valid"
  | Verified decoded =>
      if String.eqb path "/register/complete"
         && bool_decide (c_step decoded = Some "verified_phone")
      then Next decoded None
      else
        match c_id decoded with
        | None => Denied "Invalid token"
        | Some id =>
            if negb (bool_decide (c_type decoded = Some "driver"))
            then Denied "Invalid token"
            else
              match Mongo.findById id (drivers w) with
              | None => Denied "Driver not found"
              | Some d => Next decoded (Some d)
              end
        end
  end.

End DriverAccount.

(** * Properties *)

(** ** Facts about collections *)

Section CollectionFacts.
Context {A : Type}.
Implicit Types (q : A → bool) (c : gmap ObjectId A).

Lemma find_elem_of q c i d :
  (i, d) ∈ Mongo.find q c ↔ c !! i = Some d ∧ q d = true.
Proof.
  unfold Mongo.find. rewrite list_elem_of_filter, elem_of_map_to_list.
  simpl. tauto.
Qed.

Lemma find_NoDup q c : NoDup (Mongo.find q c).
Proof. apply NoDup_filter, NoDup_map_to_list. Qed.

Lemma findOne_None q c :
  Mongo.findOne q c = None ↔ ∀ i d, c !! i = Some d → q d = false.
Proof.
  unfold Mongo.findOne. rewrite head_None. split.
  - intros E i d Hi. destruct (q d) eqn:Hq; [|done].
    assert ((i, d) ∈ Mongo.find q c) as Hin by (by apply find_elem_of).
    rewrite E in Hin. by apply not_elem_of_nil in Hin.
  - intros H. destruct (Mongo.find q c) as [|[i d] l] eqn:E; [done|].
    assert ((i, d) ∈ Mongo.find q c) as Hin by (rewrite E; left).
    apply find_elem_of in Hin as [Hi Hq]. by rewrite (H _ _ Hi) in Hq.
Qed.

Lemma findOne_Some q c i d :
  Mongo.findOne q c = Some (i, d) → c !! i = Some d ∧ q d = true.
Proof.
  intros H. apply find_elem_of. by apply head_Some_elem_of.
Qed.

Lemma findOne_is_Some q c i d :
  c !! i = Some d → q d = true → is_Some (Mongo.findOne q c).
Proof.
  intros Hi Hq. destruct (Mongo.findOne q c) eqn:E; [by eexists|].
  rewrite findOne_None in E. by rewrite (E _ _ Hi) in Hq.
Qed.

(** A count of at most one says that two matching documents are the same
    document. *)
Lemma count_le_1 (P : A → Prop) `{!∀ kv : ObjectId * A, Decision (P kv.2)} c :
  length (filter (λ kv : ObjectId * A, P kv.2) (map_to_list c)) ≤ 1 ↔
  ∀ i j di dj, c !! i = Some di → c !! j = Some dj → P di → P dj → i = j.
Proof.
  set (l := filter (λ kv : ObjectId * A, P kv.2) (map_to_list c)).
  assert (∀ i d, (i, d) ∈ l ↔ c !! i = Some d ∧ P d) as Hl.
  { intros i d. unfold l. rewrite list_elem_of_filter, elem_of_map_to_list.
    simpl. tauto. }
  assert (NoDup l) as Hnd by apply NoDup_filter, NoDup_map_to_list.
  clearbody l. split.
  - intros Hlen i j di dj Hi Hj Hqi Hqj.
    assert ((i, di) ∈ l) as Hin1 by (by apply Hl).
    assert ((j, dj) ∈ l) as Hin2 by (by apply Hl).
    destruct l as [|x [|y l]]; simpl in Hlen.
    + by apply not_elem_of_nil in Hin1.
    + apply list_elem_of_singleton in Hin1, Hin2. congruence.
    + lia.
  - intros Huniq.
    destruct l as [|[i di] [|[j dj] l]]; simpl; [lia | lia |].
    exfalso.
    assert (c !! i = Some di ∧ P di) as [Hi Hqi] by (apply Hl; left).
    assert (c !! j = Some dj ∧ P dj) as [Hj Hqj] by (apply Hl; right; left).
    assert (i = j) as -> by eauto.
    assert (di = dj) as -> by congruence.
    apply NoDup_cons in Hnd as [Hnotin _]. apply Hnotin. left.
Qed.

Lemma findOneAndUpdate_hit id q u c d :
  c !! id = Some d → q d = true →
  Mongo.findOneAndUpdate id q u c = (Some (id, u d), <[id := u d]> c).
Proof. intros Hid Hq. unfold Mongo.findOneAndUpdate. by rewrite Hid, Hq. Qed.

Lemma findOneAndUpdate_miss id q u c :
  (∀ d, c !! id = Some d → q d = false) →
  Mongo.findOneAndUpdate id q u c = (None, c).
Proof.
  intros H. unfold Mongo.findOneAndUpdate.
  destruct (c !! id) as [d|] eqn:Hid; [|done]. by rewrite (H d).
Qed.

Lemma findOneAndUpdate_inv id q u c r c' :
  Mongo.findOneAndUpdate id q u c = (r, c') →
  (r = None ∧ c' = c ∧ ∀ d, c !! id = Some d → q d = false)
  ∨ (∃ d, c !! id = Some d ∧ q d = true ∧ r = Some (id, u d) ∧ c' = <[id := u d]> c).
Proof.
  unfold Mongo.findOneAndUpdate. intros H.
  destruct (c !! id) as [d|] eqn:Hid.
  - destruct (q d) eqn:Hq; simplify_eq.
    + right. by exists d.
    + left. split_and!; [done..|]. intros d' ?. by simplify_eq.
  - simplify_eq. left. split_and!; [done..|]. intros d' ?. by simplify_eq.
Qed.

End CollectionFacts.

(** ** The delivery state machine *)

Section DeliveryFacts.
Import Delivery DeliveryController Spec.

Lemma status_eqb_eq a b : status_eqb a b = true ↔ a = b.
Proof. destruct a, b; simpl; split; (done || congruence). Qed.

Lemma driverId_is_true driver d : driverId_is driver d = true ↔ driverId d = Ref driver.
Proof.
  unfold driverId_is. destruct (driverId d) as [| |x]; [done | done |].
  rewrite N.eqb_eq. split; congruence.
Qed.

Lemma unclaimed_true d : unclaimed d = true ↔ unset d.
Proof.
  unfold unclaimed, unset, driverId_is_null, driverId_not_exists.
  destruct (driverId d); simpl; split; (done || tauto || (intros [?|?]; done)).
Qed.

Lemma activeFor_true driver d : activeFor driver d = true ↔ activeWith driver d.
Proof.
  unfold activeFor, activeWith, status_active.
  by rewrite andb_true_iff, orb_true_iff, driverId_is_true, !status_eqb_eq.
Qed.

Lemma claimable_true d : claimable d = true ↔ status d = Upcoming ∧ unset d.
Proof.
  unfold claimable. by rewrite andb_true_iff, status_eqb_eq, unclaimed_true.
Qed.

Lemma findOne_active driver w :
  Mongo.findOne (activeFor driver) (deliveries w) = None ↔ ¬ holdsActive driver w.
Proof.
  rewrite findOne_None. unfold holdsActive. split.
  - intros H (i & d & Hi & Ha). apply activeFor_true in Ha.
    by rewrite (H _ _ Hi) in Ha.
  - intros H i d Hi. destruct (activeFor driver d) eqn:Ha; [|done].
    exfalso. apply H. exists i, d. by rewrite <- activeFor_true.
Qed.

Lemma singleActive_alt w :
  singleActive w ↔
  ∀ driver i j di dj,
    deliveries w !! i = Some di → deliveries w !! j = Some dj →
    activeWith driver di → activeWith driver dj → i = j.
Proof.
  unfold singleActive, activeCount. split.
  - intros H driver. apply (count_le_1 (activeWith driver)), H.
  - intros H driver. apply (count_le_1 (activeWith driver)), H.
Qed.

(** *** ClaimDelivery *)

Lemma acceptDelivery_conflict driver id now w :
  holdsActive driver w →
  acceptDelivery driver (WellFormed id) now w = (Conflict, w).
Proof.
  intros H. unfold acceptDelivery.
  destruct (Mongo.findOne (activeFor driver) (deliveries w)) eqn:E; [done|].
  by apply findOne_active in E.
Qed.

Lemma acceptDelivery_unavailable driver id now w :
  ¬ holdsActive driver w →
  (∀ d, deliveries w !! id = Some d → ¬ (status d = Upcoming ∧ unset d)) →
  acceptDelivery driver (WellFormed id) now w = (NotAvailable, w).
Proof.
  intros Hfree Hno. unfold acceptDelivery.
  apply findOne_active in Hfree. rewrite Hfree.
  rewrite findOneAndUpdate_miss; [done|].
  intros d Hd. specialize (Hno d Hd). rewrite <- claimable_true in Hno.
  by destruct (claimable d).
Qed.

Lemma acceptDelivery_claims driver id now w d :
  ¬ holdsActive driver w →
  deliveries w !! id = Some d → status d = Upcoming → unset d →
  acceptDelivery driver (WellFormed id) now w =
    (ok "Delivery accepted successfully" (id, claimUpdate driver now d),
     notify (NotificationService.notifyDeliveryAccepted driver id)
       (with_drivers (alter Driver.inc_totalDeliveries driver (drivers w))
          (with_deliveries (<[id := claimUpdate driver now d]> (deliveries w)) w))).
Proof.
  intros Hfree Hd Hs Hu. unfold acceptDelivery.
  apply findOne_active in Hfree. rewrite Hfree.
  rewrite (findOneAndUpdate_hit _ _ _ _ d); [done | done |].
  by apply claimable_true.
Qed.

(** The three outcomes of a claim with a well-formed id. *)
Lemma acceptDelivery_cases driver id now w :
  let r := acceptDelivery driver (WellFormed id) now w in
  (r = (Conflict, w))
  ∨ (r = (NotAvailable, w))
  ∨ (∃ d, ¬ holdsActive driver w ∧ deliveries w !! id = Some d
          ∧ status d = Upcoming ∧ unset d
          ∧ success r.1 = true
          ∧ deliveries r.2 = <[id := claimUpdate driver now d]> (deliveries w)).
Proof.
  cbv zeta.
  destruct (Mongo.findOne (activeFor driver) (deliveries w)) as [[j dj]|] eqn:Ha.
  - left. apply acceptDelivery_conflict. apply findOne_Some in Ha as [Hj Hq].
    exists j, dj. by rewrite <- activeFor_true.
  - apply findOne_active in Ha. destruct (deliveries w !! id) as [d|] eqn:Hd.
    + destruct (claimable d) eqn:Hc.
      * apply claimable_true in Hc as [Hs Hu]. right. right. exists d.
        rewrite (acceptDelivery_claims _ _ _ _ d) by done. simpl. split_and!; auto.
      * right. left. apply acceptDelivery_unavailable; [done|].
        intros d' Hd'. simplify_eq. rewrite <- claimable_true. by rewrite Hc.
    + right. left. apply acceptDelivery_unavailable; [done|]. intros d' ?. congruence.
Qed.

(** *** StartDelivery and CompleteDelivery *)

Lemma startDelivery_cases driver id now w :
  let r := startDelivery driver (WellFormed id) now w in
  (r = (InvalidTransition, w)
   ∧ ∀ d, deliveries w !! id = Some d → ¬ (driverId d = Ref driver ∧ status d = Accepted))
  ∨ (∃ d, deliveries w !! id = Some d ∧ driverId d = Ref driver ∧ status d = Accepted
          ∧ r = (ok "Delivery started successfully" (id, startUpdate now d),
                 notify (NotificationService.notifyDeliveryStarted driver id)
                   (with_deliveries (<[id := startUpdate now d]> (deliveries w)) w))).
Proof.
  cbv zeta. unfold startDelivery.
  destruct (Mongo.findOneAndUpdate _ _ _ _) as [r c] eqn:E.
  apply findOneAndUpdate_inv in E as [(-> & -> & Hno) | (d & Hd & Hq & -> & ->)].
  - left. split; [done|]. intros d Hd [Ho Hs]. specialize (Hno d Hd).
    apply andb_false_iff in Hno as [Hno|Hno].
    + apply driverId_is_true in Ho. congruence.
    + apply status_eqb_eq in Hs. congruence.
  - right. apply andb_true_iff in Hq as [Ho Hs].
    apply driverId_is_true in Ho. apply status_eqb_eq in Hs. by exists d.
Qed.

Lemma earning_price d : earning d = price d.
Proof.
  unfold earning, estimatedEarning, Js.or_num.
  destruct (price d =? 0)%Z eqn:E; simpl.
  - apply Z.eqb_eq in E. by rewrite E.
  - by rewrite E.
Qed.

Lemma completeDelivery_cases driver id now w :
  let r := completeDelivery driver (WellFormed id) now w in
  (r = (CannotComplete, w)
   ∧ ∀ d, deliveries w !! id = Some d → ¬ (driverId d = Ref driver ∧ status d = InTransit))
  ∨ (∃ d, deliveries w !! id = Some d ∧ driverId d = Ref driver ∧ status d = InTransit
          ∧ r.1 = ok "Delivery completed successfully" (id, completeUpdate now d)
          ∧ deliveries r.2 = <[id := completeUpdate now d]> (deliveries w)
          ∧ drivers r.2 = drivers w ∧ otps r.2 = otps w ∧ destroyed r.2 = destroyed w
          ∧ notifications r.2 = notifications w ++ completionEvents driver id d).
Proof.
  cbv zeta. unfold completeDelivery.
  destruct (Mongo.findOneAndUpdate _ _ _ _) as [r c] eqn:E.
  apply findOneAndUpdate_inv in E as [(-> & -> & Hno) | (d & Hd & Hq & -> & ->)].
  - left. split; [done|]. intros d Hd [Ho Hs]. specialize (Hno d Hd).
    apply andb_false_iff in Hno as [Hno|Hno].
    + apply driverId_is_true in Ho. congruence.
    + apply status_eqb_eq in Hs. congruence.
  - right. apply andb_true_iff in Hq as [Ho Hs].
    apply driverId_is_true in Ho. apply status_eqb_eq in Hs. exists d.
    cbn [snd fst]. rewrite earning_price. unfold completionEvents.
    change (price (completeUpdate now d)) with (price d).
    destruct (0 <? price d)%Z; simpl; split_and!; try done.
    unfold NotificationService.notifyPaymentSuccess,
      NotificationService.notifyDeliveryCompleted,
      NotificationService.createNotification.
    by rewrite <- app_assoc.
Qed.

(** *** Sequences of operations *)

(** An operation leaves the state alone or applies one transition to one
    delivery. *)
Lemma run_step o w :
  deliveries (run o w).2 = deliveries w
  ∨ ∃ id d d', deliveries w !! id = Some d ∧ transition w d d'
               ∧ deliveries (run o w).2 = <[id := d']> (deliveries w).
Proof.
  destruct o as [driver [|id] now | driver [|id] now | driver [|id] now];
    try (by left).
  - cbn [run]. destruct (acceptDelivery_cases driver id now w)
      as [-> | [-> | (d & Hfree & Hd & Hs & Hu & _ & Hc)]]; [by left..|].
    right. exists id, d, (claimUpdate driver now d).
    split_and!; [done | by constructor | done].
  - cbn [run]. destruct (startDelivery_cases driver id now w)
      as [[-> _] | (d & Hd & Ho & Hs & ->)]; [by left|].
    right. exists id, d, (startUpdate now d).
    split_and!; [done | by econstructor | done].
  - cbn [run]. destruct (completeDelivery_cases driver id now w)
      as [[-> _] | (d & Hd & Ho & Hs & _ & Hc & _)]; [by left|].
    right. exists id, d, (completeUpdate now d).
    split_and!; [done | by econstructor | done].
Qed.




(** A delivery that is no longer claimable never becomes claimable again. *)
Lemma run_claimed id o w : claimed id w → claimed id (run o w).2.
Proof.
  intros (d & Hd & Hs). unfold claimed.
  destruct (run_step o w) as [-> | (id' & d0 & d' & Hd0 & Ht & ->)];
    [by exists d|].
  destruct (decide (id' = id)) as [->|Hne].
  - exists d'. rewrite lookup_insert_eq. split; [done|].
    destruct Ht; simpl; discriminate.
  - exists d. by rewrite lookup_insert_ne.
Qed.

Lemma run_all_claimed id ops w : claimed id w → claimed id (run_all ops w).
Proof.
  revert w. induction ops as [|o ops IH]; intros w H; [done|].
  apply IH. by apply run_claimed.
Qed.

Lemma acceptDelivery_claimed driver id now w :
  claimed id w → success (acceptDelivery driver (WellFormed id) now w).1 = false.
Proof.
  intros (d & Hd & Hs).
  destruct (acceptDelivery_cases driver id now w)
    as [-> | [-> | (d' & _ & Hd' & Hs' & _)]]; [done | done |].
  congruence.
Qed.

End DeliveryFacts.

(** ** The claims about the delivery state machine *)

Section DeliveryClaims.
Import Delivery DeliveryController Spec.


Lemma no_active_free driver w :
  Mongo.findOne (activeFor driver) (deliveries w) = None → ¬ holdsActive driver w.
Proof. apply findOne_active. Qed.

(** C1, as stated, fails: driver 7 holds delivery 1, and delivery 2 is
    upcoming with its driver id unset, yet the claim of delivery 2 by
    driver 7 is refused (with Conflict, not NotAvailable) and nothing is
    modified. *)
Lemma claim_refused_for_available_delivery :
  deliveries one_held !! 2%N = Some (parcel Upcoming Null 30 200)
  ∧ status (parcel Upcoming Null 30 200) = Upcoming
  ∧ driverId (parcel Upcoming Null 30 200) = Null
  ∧ success (acceptDelivery 7%N (WellFormed 2%N) 500 one_held).1 = false
  ∧ (acceptDelivery 7%N (WellFormed 2%N) 500 one_held).1 ≠ NotAvailable
  ∧ acceptDelivery 7%N (WellFormed 2%N) 500 one_held = (Conflict, one_held).
Proof. vm_compute. split_and!; (reflexivity || discriminate). Qed.

(** C1 (amended): for every ClaimDelivery(driverId, deliveryId) call by a
    driver who holds no accepted or in-transit delivery, the transition is
    a single conditional update: if the delivery with that id has status
    upcoming and its driver id is unset, the call succeeds and sets
    driverId to the caller, status to accepted and acceptedAt, leaving the
    other fields of that delivery and every other delivery as they were;
    if no delivery matches that predicate, the call fails with
    NotAvailable and nothing is modified.  A call by a driver who holds an
    accepted or in-transit delivery fails with Conflict and modifies
    nothing.  Of any two claim attempts on the same delivery, whatever
    delivery operations run in between, at most one succeeds. *)
Theorem claim_is_conditional_update (driver id : ObjectId) (now : Z) (w : World) :
  let r := acceptDelivery driver (WellFormed id) now w in
  (¬ holdsActive driver w →
     (∀ d, deliveries w !! id = Some d → status d = Upcoming → unset d →
        success r.1 = true
        ∧ (∃ d', deliveries r.2 !! id = Some d' ∧ delivery r.1 = Some (id, d')
                 ∧ driverId d' = Ref driver ∧ status d' = Accepted
                 ∧ acceptedAt d' = Some now
                 ∧ senderId d' = senderId d ∧ price d' = price d
                 ∧ startedAt d' = startedAt d ∧ completedAt d' = completedAt d
                 ∧ createdAt d' = createdAt d)
        ∧ (∀ j, j ≠ id → deliveries r.2 !! j = deliveries w !! j))
     ∧ ((∀ d, deliveries w !! id = Some d → ¬ (status d = Upcoming ∧ unset d)) →
        r = (NotAvailable, w)))
  ∧ (holdsActive driver w → r = (Conflict, w))
  ∧ (success r.1 = true →
     ∀ ops driver' now',
       success (acceptDelivery driver' (WellFormed id) now' (run_all ops r.2)).1 = false).
Proof.
  cbv zeta. split_and!.
  - intros Hfree. split.
    + intros d Hd Hs Hu. rewrite (acceptDelivery_claims _ _ _ _ d) by done.
      cbn [fst snd]. split_and!; [done | | ].
      * exists (claimUpdate driver now d). simpl.
        rewrite lookup_insert_eq. by split_and!.
      * intros j Hj. simpl. by rewrite lookup_insert_ne.
    + intros Hno. by apply acceptDelivery_unavailable.
  - apply acceptDelivery_conflict.
  - intros Hok ops driver' now'. apply acceptDelivery_claimed, run_all_claimed.
    destruct (acceptDelivery_cases driver id now w)
      as [E | [E | (d & _ & Hd & _ & _ & _ & Hc)]].
    + rewrite E in Hok. discriminate.
    + rewrite E in Hok. discriminate.
    + exists (claimUpdate driver now d). rewrite Hc, lookup_insert_eq. by split.
Qed.

(** C1 (amended), instantiated: driver 7 claims delivery 1 of two upcoming
    deliveries at time 500; a later attempt by driver 8 fails. *)
Lemma claim_is_conditional_update_witness :
  success (acceptDelivery 7%N (WellFormed 1%N) 500 two_upcoming).1 = true
  ∧ success (acceptDelivery 8%N (WellFormed 1%N) 600
               (acceptDelivery 7%N (WellFormed 1%N) 500 two_upcoming).2).1 = false.
Proof.
  destruct (claim_is_conditional_update 7%N 1%N 500 two_upcoming)
    as (Hupd & _ & Hone).
  destruct Hupd as [Hupd _]; [by apply no_active_free|].
  destruct (Hupd (parcel Upcoming Null 25 100)) as (Hok & _);
    [reflexivity | reflexivity | by left |].
  split; [exact Hok|]. exact (Hone Hok [] 8%N 600%Z).
Defined.



(** C6: StartDelivery called twice in succession by the same driver on a
    delivery that is accepted and owned by that driver: the first call
    succeeds and sets status in-transit and startedAt; the retry fails
    with InvalidTransition and leaves the whole state, so the delivery's
    status and all its timestamps, as the first call left it. *)
Theorem start_delivery_retry (driver id : ObjectId) (t1 t2 : Z) (w : World)
    (d : Doc)
    (Hd : deliveries w !! id = Some d)
    (Hs : status d = Accepted)
    (Ho : driverId d = Ref driver) :
  let r1 := startDelivery driver (WellFormed id) t1 w in
  let r2 := startDelivery driver (WellFormed id) t2 r1.2 in
  success r1.1 = true
  ∧ (∃ d1, deliveries r1.2 !! id = Some d1
           ∧ status d1 = InTransit ∧ startedAt d1 = Some t1
           ∧ acceptedAt d1 = acceptedAt d ∧ completedAt d1 = completedAt d
           ∧ driverId d1 = Ref driver
           ∧ deliveries r2.2 !! id = Some d1)
  ∧ r2.1 = InvalidTransition
  ∧ r2.2 = r1.2.
Proof.
  cbv zeta.
  destruct (startDelivery_cases driver id t1 w)
    as [[_ Hno] | (d0 & Hd0 & _ & _ & E1)].
  { exfalso. by apply (Hno d Hd). }
  simplify_eq. rewrite E1. cbn [fst snd].
  set (w1 := notify _ _).
  assert (deliveries w1 !! id = Some (startUpdate t1 d)) as Hd1
    by (subst w1; simpl; apply lookup_insert_eq).
  destruct (startDelivery_cases driver id t2 w1)
    as [[E2 _] | (d2 & Hd2 & _ & Hs2 & _)].
  - rewrite E2. cbn [fst snd]. split_and!; [done | | done | done].
    exists (startUpdate t1 d). by split_and!.
  - rewrite Hd1 in Hd2. simplify_eq.
Qed.

(** C6, instantiated on the delivery that driver 7 holds. *)
Lemma start_delivery_retry_witness :
  success (startDelivery 7%N (WellFormed 1%N) 600 one_held).1 = true
  ∧ (startDelivery 7%N (WellFormed 1%N) 650
       (startDelivery 7%N (WellFormed 1%N) 600 one_held).2).1 = InvalidTransition
  ∧ (startDelivery 7%N (WellFormed 1%N) 650
       (startDelivery 7%N (WellFormed 1%N) 600 one_held).2).2
    = (startDelivery 7%N (WellFormed 1%N) 600 one_held).2.
Proof.
  destruct (start_delivery_retry 7%N 1%N 600 650 one_held
              (parcel Accepted (Ref 7%N) 25 100) eq_refl eq_refl eq_refl)
    as (H1 & _ & H2 & H3).
  exact (conj H1 (conj H2 H3)).
Defined.

Lemma completionEvents_completed driver id d :
  filter (λ n, NotificationService.ntype n = "delivery_completed")
         (completionEvents driver id d)
  = [NotificationService.mkNotification driver "delivery_completed"
       (NotificationService.EarningData id (price d)) "high"].
Proof. unfold completionEvents. by destruct (0 <? price d)%Z. Qed.

Lemma completionEvents_payment driver id d :
  filter (λ n, NotificationService.ntype n = "payment_success")
         (completionEvents driver id d)
  = if (0 <? price d)%Z
    then [NotificationService.mkNotification driver "payment_success"
            (NotificationService.PaymentData (price d) "delivery completion") "high"]
    else [].
Proof. unfold completionEvents. by destruct (0 <? price d)%Z. Qed.

(** C7: CompleteDelivery(driverId, deliveryId) succeeds if and only if
    the delivery has status in-transit and driver id equal to the caller;
    it then sets status completed and completedAt, emits one
    delivery_completed, and emits payment_success exactly when the
    delivery's price is greater than 0, with amount equal to that price.
    A call that does not succeed changes nothing. *)
Theorem complete_delivery_spec (driver id : ObjectId) (now : Z) (w : World) :
  let r := completeDelivery driver (WellFormed id) now w in
  (success r.1 = true ↔
   ∃ d, deliveries w !! id = Some d ∧ status d = InTransit ∧ driverId d = Ref driver)
  ∧ (∀ d, deliveries w !! id = Some d → status d = InTransit →
          driverId d = Ref driver →
       (∃ d', deliveries r.2 !! id = Some d'
              ∧ status d' = Completed ∧ completedAt d' = Some now
              ∧ driverId d' = driverId d ∧ price d' = price d
              ∧ acceptedAt d' = acceptedAt d ∧ startedAt d' = startedAt d)
       ∧ (∀ j, j ≠ id → deliveries r.2 !! j = deliveries w !! j)
       ∧ ∃ emitted,
           notifications r.2 = notifications w ++ emitted
           ∧ filter (λ n, NotificationService.ntype n = "delivery_completed") emitted
             = [NotificationService.mkNotification driver "delivery_completed"
                  (NotificationService.EarningData id (price d)) "high"]
           ∧ ((0 < price d)%Z →
              filter (λ n, NotificationService.ntype n = "payment_success") emitted
              = [NotificationService.mkNotification driver "payment_success"
                   (NotificationService.PaymentData (price d) "delivery completion")
                   "high"])
           ∧ (¬ (0 < price d)%Z →
              filter (λ n, NotificationService.ntype n = "payment_success") emitted = []))
  ∧ (success r.1 = false → r.2 = w).
Proof.
  cbv zeta.
  destruct (completeDelivery_cases driver id now w)
    as [[E Hno] | (d & Hd & Ho & Hs & E1 & Hc & _ & _ & _ & Hn)].
  - rewrite E. cbn [fst snd]. split_and!.
    + split; [discriminate|]. intros (d & Hd & Hs & Ho). exfalso.
      by apply (Hno d Hd).
    + intros d Hd Hs Ho. exfalso. by apply (Hno d Hd).
    + done.
  - rewrite E1, Hc, Hn. split_and!.
    + split; [|done]. intros _. by exists d.
    + intros d0 Hd0 _ _. assert (d0 = d) as -> by congruence. split_and!.
      * exists (completeUpdate now d). rewrite lookup_insert_eq. by split_and!.
      * intros j Hj. by rewrite lookup_insert_ne.
      * exists (completionEvents driver id d).
        rewrite completionEvents_completed, completionEvents_payment.
        split_and!; [done | done | |].
        -- intros Hp. apply Z.ltb_lt in Hp. by rewrite Hp.
        -- intros Hp. apply Z.ltb_nlt in Hp. by rewrite Hp.
    + discriminate.
Qed.

(** C7, instantiated on the happy path: a delivery of price 25 is
    claimed, started and completed by driver 7; exactly one
    payment_success, of amount 25, reaches the sink. *)
Lemma complete_delivery_spec_witness :
  success
    (completeDelivery 7%N (WellFormed 1%N) 700
       (run_all [ClaimDelivery 7%N (WellFormed 1%N) 500;
                 StartDelivery 7%N (WellFormed 1%N) 600] two_upcoming)).1 = true
  ∧ filter (λ n, NotificationService.ntype n = "payment_success")
      (notifications
         (completeDelivery 7%N (WellFormed 1%N) 700
            (run_all [ClaimDelivery 7%N (WellFormed 1%N) 500;
                      StartDelivery 7%N (WellFormed 1%N) 600] two_upcoming)).2)
    = [NotificationService.mkNotification 7%N "payment_success"
         (NotificationService.PaymentData 25 "delivery completion") "high"].
Proof.
  destruct (complete_delivery_spec 7%N 1%N 700
              (run_all [ClaimDelivery 7%N (WellFormed 1%N) 500;
                        StartDelivery 7%N (WellFormed 1%N) 600] two_upcoming))
    as (Hiff & _ & _).
  split; [|vm_compute; reflexivity].
  apply Hiff.
  exists (mkDoc 9%N (Ref 7%N) 25 InTransit (Some 500%Z) (Some 600%Z) None 100 600).
  split_and!; reflexivity.
Defined.

(** *** ListAvailable *)

Lemma descending_total (key : Doc → Z) : Total (Mongo.descending key).
Proof. intros a b. unfold Mongo.descending. lia. Qed.

Lemma descending_trans (key : Doc → Z) : Transitive (Mongo.descending key).
Proof. intros a b c. unfold Mongo.descending. lia. Qed.

Lemma sortDesc_elem_of (key : Doc → Z) l x :
  x ∈ Mongo.sortDesc key l ↔ x ∈ l.
Proof. unfold Mongo.sortDesc. by rewrite merge_sort_Permutation. Qed.

Lemma sortDesc_sorted (key : Doc → Z) l :
  StronglySorted (Mongo.descending key) (Mongo.sortDesc key l).
Proof.
  apply StronglySorted_merge_sort;
    [apply descending_trans | apply descending_total].
Qed.

(** The schema's static [findAvailable] returns exactly the upcoming
    deliveries with an unset driver id, newest first. *)
Lemma findAvailable_spec (c : gmap ObjectId Doc) :
  (∀ i d, (i, d) ∈ findAvailable c ↔
          c !! i = Some d ∧ status d = Upcoming ∧ unset d)
  ∧ StronglySorted (Mongo.descending createdAt) (findAvailable c).
Proof.
  unfold findAvailable. split; [|apply sortDesc_sorted].
  intros i d. rewrite sortDesc_elem_of, find_elem_of.
  rewrite andb_true_iff, status_eqb_eq, orb_comm.
  change (driverId_is_null d || driverId_not_exists d) with (unclaimed d).
  by rewrite unclaimed_true.
Qed.

(** The handler returns every delivery with an unset driver id, of any
    status, newest first. *)
Lemma getAvailableDeliveries_spec (w : World) :
  (∀ i d, (i, d) ∈ getAvailableDeliveries w ↔
          deliveries w !! i = Some d ∧ unset d)
  ∧ StronglySorted (Mongo.descending createdAt) (getAvailableDeliveries w).
Proof.
  unfold getAvailableDeliveries. split; [|apply sortDesc_sorted].
  intros i d. by rewrite sortDesc_elem_of, find_elem_of, unclaimed_true.
Qed.

(** C5 fails on the handler: with an unclaimed delivery that was
    cancelled and an unclaimed upcoming one in the store,
    [getAvailableDeliveries] lists both, the cancelled one first, whereas
    the schema's [findAvailable] lists only the upcoming one; and the
    listed cancelled delivery cannot be claimed. *)
Theorem getAvailableDeliveries_lists_cancelled :
  getAvailableDeliveries one_cancelled
    = [(1%N, parcel Cancelled Null 25 300); (2%N, parcel Upcoming Null 30 200)]
  ∧ findAvailable (deliveries one_cancelled) = [(2%N, parcel Upcoming Null 30 200)]
  ∧ acceptDelivery 7%N (WellFormed 1%N) 500 one_cancelled
    = (NotAvailable, one_cancelled).
Proof. vm_compute. by split_and!. Qed.

End DeliveryClaims.

(** ** The registration step machine *)

Section RegistrationFacts.
Import DriverRegistrationController RegSpec.

Lemma truthy_isSet s : Js.truthy s = true ↔ isSet s.
Proof.
  unfold isSet. destruct s as [[|a s]|]; simpl; split; try done.
  - intros (v & [= <-] & Hv). done.
  - intros _. by eexists.
  - intros (v & [=] & _).
Qed.

Lemma truthy_not_isSet s : Js.truthy s = false ↔ ¬ isSet s.
Proof.
  rewrite <- truthy_isSet. destruct (Js.truthy s); split; (done || congruence).
Qed.

Lemma includes_elem_of l x : Js.includes l x = true ↔ x ∈ l.
Proof.
  unfold Js.includes. rewrite existsb_exists, list_elem_of_In. split.
  - intros (y & Hy & E). apply String.eqb_eq in E. by subst.
  - intros H. exists x. split; [done|]. apply String.eqb_refl.
Qed.

Lemma uploadedDocs_elem_of d k : k ∈ Driver.uploadedDocs d ↔ hasDocument k d.
Proof.
  unfold Driver.uploadedDocs, hasDocument.
  destruct (Driver.documents d) as [docs|].
  - rewrite list_elem_of_fmap. split.
    + intros ([k' x] & -> & Hx). apply elem_of_map_to_list in Hx.
      exists docs. split; [done|]. by exists x.
    + intros (docs' & [= <-] & x & Hx). exists (k, x). split; [done|].
      by apply elem_of_map_to_list.
  - split; [by intros ?%not_elem_of_nil | by intros (? & [=] & _)].
Qed.

Lemma missingDocs_elem_of d k :
  k ∈ missingDocs d ↔ k ∈ requiredDocs ∧ ¬ hasDocument k d.
Proof.
  unfold missingDocs. rewrite list_elem_of_In, filter_In, <- list_elem_of_In.
  rewrite negb_true_iff, <- uploadedDocs_elem_of.
  split; intros [H1 H2]; (split; [done|]).
  - intros Hin. apply includes_elem_of in Hin. congruence.
  - destruct (Js.includes (Driver.uploadedDocs d) k) eqn:E; [|done].
    by apply includes_elem_of in E.
Qed.

Lemma missingDocs_nil d :
  missingDocs d = [] ↔ hasDocument "driversLicense" d ∧ hasDocument "profilePhoto" d.
Proof.
  rewrite <- !uploadedDocs_elem_of, <- !includes_elem_of.
  unfold missingDocs, requiredDocs. simpl.
  destruct (Js.includes _ "driversLicense"), (Js.includes _ "profilePhoto");
    simpl; split; (done || (intros [? ?]; done)).
Qed.

Lemma basicInfo_check d :
  negb (Js.truthy (Driver.name d)) || negb (Js.truthy (Driver.email d))
  || negb (Js.truthy (Driver.firstName d)) || negb (Js.truthy (Driver.lastName d))
  = false ↔ basicInfo d.
Proof.
  unfold basicInfo. rewrite <- !truthy_isSet.
  destruct (Js.truthy (Driver.name d)), (Js.truthy (Driver.email d)),
    (Js.truthy (Driver.firstName d)), (Js.truthy (Driver.lastName d));
    simpl; split; (done || (intros (? & ? & ? & ?); done)).
Qed.

Lemma earnSetup_check d :
  negb (Js.truthy (Driver.earnType d)) || negb (Js.truthy (Driver.city d)) = false
  ↔ earnSetup d.
Proof.
  unfold earnSetup. rewrite <- !truthy_isSet.
  destruct (Js.truthy (Driver.earnType d)), (Js.truthy (Driver.city d));
    simpl; split; (done || (intros (? & ?); done)).
Qed.

Lemma documents_check d :
  Nat.ltb 0 (length (missingDocs d)) = false ↔ requiredDocuments d.
Proof.
  unfold requiredDocuments. rewrite <- missingDocs_nil.
  destruct (missingDocs d); simpl; split; done.
Qed.

Lemma finalizeErrors_nil d :
  finalizeErrors d = [] ↔ basicInfo d ∧ earnSetup d ∧ requiredDocuments d.
Proof.
  rewrite <- basicInfo_check, <- earnSetup_check, <- documents_check.
  unfold finalizeErrors.
  destruct (_ || _ || _ || _), (_ || _), (Nat.ltb _ _); simpl; split;
    (done || (intros (? & ? & ?); done)).
Qed.

Lemma finalizeErrors_basic d :
  "Basic information incomplete (name, email required)" ∈ finalizeErrors d
  ↔ ¬ basicInfo d.
Proof.
  rewrite <- basicInfo_check. unfold finalizeErrors.
  destruct (_ || _ || _ || _), (_ || _), (Nat.ltb _ _); simpl;
    rewrite ?elem_of_cons, ?elem_of_nil; split; intros H;
    try done; try (by left);
    try (destruct H as [H|H]; try discriminate H;
         try (destruct H as [H|H]; try discriminate H)); try done.
Qed.

Lemma finalizeErrors_earn d :
  "Earn type and city must be set" ∈ finalizeErrors d ↔ ¬ earnSetup d.
Proof.
  rewrite <- earnSetup_check. unfold finalizeErrors.
  destruct (_ || _ || _ || _), (_ || _), (Nat.ltb _ _); simpl;
    rewrite ?elem_of_cons, ?elem_of_nil; split; intros H;
    try done; try (by left); try (by right; left);
    try (destruct H as [H|H]; try discriminate H;
         try (destruct H as [H|H]; try discriminate H)); try done.
Qed.

(** *** FinalizeRegistration *)

(** C4, as stated, fails: a driver whose name and email are set, whose
    earn type and city are set and whose documents hold both required
    keys, but whose record has no firstName and lastName (a record as
    [driverController.register] creates it), is refused. *)
Lemma finalize_refused_without_name_parts :
  isSet (Driver.name legacy_driver) ∧ isSet (Driver.email legacy_driver)
  ∧ isSet (Driver.earnType legacy_driver) ∧ isSet (Driver.city legacy_driver)
  ∧ hasDocument "driversLicense" legacy_driver
  ∧ hasDocument "profilePhoto" legacy_driver
  ∧ code (completeFullRegistration (Bearer (continuation "documents_uploading"))
            (with_driver legacy_driver)).1 = 400
  ∧ errors (completeFullRegistration (Bearer (continuation "documents_uploading"))
              (with_driver legacy_driver)).1
    = ["Basic information incomplete (name, email required)"].
Proof.
  split_and!; try (apply truthy_isSet; reflexivity);
    try (apply uploadedDocs_elem_of, includes_elem_of; vm_compute; reflexivity);
    vm_compute; reflexivity.
Qed.

(** C4 (amended): for the driver that the token resolves to,
    FinalizeRegistration succeeds if and only if the driver's name,
    firstName, lastName and email are set, earnType and city are set, and
    the documents map contains both keys driversLicense and profilePhoto.
    On success it sets verified=true and registrationStep='completed',
    leaves the other drivers alone, and issues a session token (type
    'driver', valid 7 days, no continuation token).  On failure it answers
    400, reports the missing prerequisites and changes nothing. *)
Theorem finalize_gate (decoded : Claims) (w : World) (id : ObjectId)
    (d : Driver.Doc)
    (Hd : findDriver decoded w = Some (id, d)) :
  let r := completeFullRegistration (Bearer decoded) w in
  let ready := basicInfo d ∧ earnSetup d ∧ requiredDocuments d in
  (code r.1 = 200 ↔ ready)
  ∧ (ready →
       (∃ d', drivers r.2 !! id = Some d'
              ∧ Driver.verified d' = true
              ∧ Driver.registrationStep d' = Some "completed"
              ∧ Driver.name d' = Driver.name d ∧ Driver.email d' = Driver.email d
              ∧ Driver.earnType d' = Driver.earnType d ∧ Driver.city d' = Driver.city d
              ∧ Driver.documents d' = Driver.documents d)
       ∧ (∀ j, j ≠ id → drivers r.2 !! j = drivers w !! j)
       ∧ token r.1 = Some (mkToken (mkClaims (Some id) (Driver.phone d) (Driver.email d)
                                      None (Some "driver")) "7d")
       ∧ tempToken r.1 = None
       ∧ notifications r.2
         = notifications w
           ++ [NotificationService.mkNotification id "registration_completed"
                 (NotificationService.StepData "completed") "high";
               NotificationService.mkNotification id "verification_approved"
                 NotificationService.NoData "high"])
  ∧ (¬ ready →
       code r.1 = 400 ∧ r.2 = w ∧ token r.1 = None ∧ tempToken r.1 = None
       ∧ errors r.1 ≠ []
       ∧ ("Basic information incomplete (name, email required)" ∈ errors r.1
          ↔ ¬ basicInfo d)
       ∧ ("Earn type and city must be set" ∈ errors r.1 ↔ ¬ earnSetup d)
       ∧ (∀ k, k ∈ missingDocuments r.1 ↔
               k ∈ ["driversLicense"; "profilePhoto"] ∧ ¬ hasDocument k d)).
Proof.
  cbv zeta. unfold completeFullRegistration. rewrite Hd.
  rewrite <- finalizeErrors_nil.
  destruct (finalizeErrors d) as [|e es] eqn:E; cbn [length Nat.ltb Nat.leb fst snd].
  - split_and!.
    + done.
    + intros _. unfold Mongo.save, notify, with_drivers.
      cbn [fst snd drivers notifications token tempToken].
      split_and!; try done.
      * exists (Driver.set_completed d). rewrite lookup_insert_eq. by split_and!.
      * intros j Hj. by rewrite lookup_insert_ne.
      * unfold NotificationService.notifyVerificationApproved,
          NotificationService.notifyRegistrationCompleted,
          NotificationService.createNotification.
        by rewrite <- app_assoc.
    + done.
  - split_and!.
    + split; discriminate.
    + discriminate.
    + intros _. simpl. split_and!; try done.
      * rewrite <- E. apply finalizeErrors_basic.
      * rewrite <- E. apply finalizeErrors_earn.
      * intros k. apply missingDocs_elem_of.
Qed.

(** C4 (amended), instantiated on a driver that has everything. *)
Lemma finalize_gate_witness :
  code (completeFullRegistration (Bearer (continuation "documents_uploading"))
          (with_driver ready_driver)).1 = 200.
Proof.
  apply (finalize_gate (continuation "documents_uploading")
           (with_driver ready_driver) 1%N ready_driver eq_refl).
  unfold basicInfo, earnSetup, requiredDocuments.
  split_and!; try (apply truthy_isSet; reflexivity);
    apply uploadedDocs_elem_of, includes_elem_of; vm_compute; reflexivity.
Defined.

(** *** The effective registration step *)

(** C3 fails on the handlers.  First run: a driver completes basic info
    and earn type, then submits basic info again with the token that
    SetupEarnType issued; the stored step and the step of the token that
    is issued both fall back to basic_info_completed, so the effective
    step under the token now in force drops below earn_type_completed.
    Second run: a finalised driver calls SetupEarnType with the session
    token; the effective step drops from completed to earn_type_completed,
    under the token presented as well as under the token issued. *)
Theorem registration_step_regresses :
  let phoneToken :=
    mkClaims None (Some "+15550001") None (Some "verified_phone") None in
  let r1 := completeRegistration (Bearer phoneToken) (Some "Ann") (Some "Lee")
              (Some "ann@example.org") (Some "secret1") empty_world in
  let r2 := setupEarnType (present r1.1) (Some "car") (Some "Lagos") None r1.2 in
  let r3 := completeRegistration (present r2.1) (Some "Ann") (Some "Lee")
              (Some "ann@example.org") (Some "secret1") r2.2 in
  let f := completeFullRegistration (Bearer (continuation "documents_uploading"))
             (with_driver ready_driver) in
  let s := setupEarnType (present f.1) (Some "truck") (Some "Lagos") None f.2 in
  (code r1.1 = 201 ∧ code r2.1 = 200 ∧ code r3.1 = 200
   ∧ effectiveStep 0%N (issuedStep r2.1) r2.2 = Some "earn_type_completed"
   ∧ Driver.registrationStep <$> drivers r3.2 !! 0%N
     = Some (Some "basic_info_completed")
   ∧ issuedStep r3.1 = Some "basic_info_completed"
   ∧ effectiveStep 0%N (issuedStep r3.1) r3.2 = Some "basic_info_completed"
   ∧ (effectiveRank 0%N (issuedStep r3.1) r3.2
      < effectiveRank 0%N (issuedStep r2.1) r2.2)%Z)
  ∧ (code f.1 = 200 ∧ code s.1 = 200
     ∧ effectiveStep 1%N (issuedStep f.1) f.2 = Some "completed"
     ∧ effectiveStep 1%N (issuedStep f.1) s.2 = Some "earn_type_completed"
     ∧ effectiveStep 1%N (issuedStep s.1) s.2 = Some "earn_type_completed"
     ∧ (effectiveRank 1%N (issuedStep f.1) s.2
        < effectiveRank 1%N (issuedStep f.1) f.2)%Z
     ∧ (effectiveRank 1%N (issuedStep s.1) s.2
        < effectiveRank 1%N (issuedStep f.1) f.2)%Z).
Proof. vm_compute. split_and!; reflexivity. Qed.

(** The handler that guards its assignment: [uploadDocument] never lowers
    the stored step of a driver, hence never the effective step under any
    token ([uploadDocument_effectiveRank] below). *)
Lemma stepIndex_range s : (-1 ≤ stepIndex s ≤ 4)%Z.
Proof.
  unfold stepIndex. destruct s as [s|]; [|lia].
  destruct (Js.truthy (Some s)); [|lia].
  unfold stepOrder. cbn [Js.indexOf].
  repeat destruct (String.eqb _ s); simpl; lia.
Qed.

Lemma effectiveRank_max d ts :
  stepIndex (Some (getCurrentRegistrationStep d ts))
  = Z.max 0 (Z.max (stepIndex (Driver.registrationStep d)) (stepIndex ts)).
Proof.
  unfold getCurrentRegistrationStep.
  pose proof (stepIndex_range (Driver.registrationStep d)) as Hs.
  pose proof (stepIndex_range ts) as Ht.
  set (i := Z.max _ _) in *.
  assert (i = -1 ∨ i = 0 ∨ i = 1 ∨ i = 2 ∨ i = 3 ∨ i = 4)%Z as Hi by lia.
  destruct Hi as [-> | [-> | [-> | [-> | [-> | ->]]]]]; reflexivity.
Qed.

Lemma step_guard d ts :
  let currentStep := getCurrentRegistrationStep d ts in
  String.eqb currentStep "verified_phone"
  || String.eqb currentStep "basic_info_completed"
  || String.eqb currentStep "earn_type_completed" = true →
  (stepIndex (Driver.registrationStep d) ≤ 2)%Z.
Proof.
  cbv zeta. intros H.
  pose proof (effectiveRank_max d ts) as Hr.
  apply orb_true_iff in H as [H|H]; [apply orb_true_iff in H as [H|H]|];
    apply String.eqb_eq in H; rewrite H in Hr; vm_compute stepIndex in Hr at 1; lia.
Qed.

Lemma findDriver_lookup decoded w id d :
  findDriver decoded w = Some (id, d) → drivers w !! id = Some d.
Proof.
  unfold findDriver, Mongo.findById. destruct (c_id decoded) as [i|].
  - destruct (drivers w !! i) eqn:E; simpl; intros [= <- <-]; done.
  - destruct (c_phone decoded) as [ph|]; [|done].
    destruct (Js.truthy (Some ph)); [|done].
    intros H. by apply findOne_Some in H as [? _].
Qed.

Lemma uploadDocument_drivers auth documentType file now saveOk w id d :
  drivers w !! id = Some d →
  ∃ d', drivers (uploadDocument auth documentType file now saveOk w).2 !! id = Some d'
        ∧ (stepIndex (Driver.registrationStep d)
           ≤ stepIndex (Driver.registrationStep d'))%Z.
Proof.
  intros Hd.
  assert (∀ w', drivers w' = drivers w →
            ∃ d', drivers w' !! id = Some d'
                  ∧ (stepIndex (Driver.registrationStep d)
                     ≤ stepIndex (Driver.registrationStep d'))%Z) as Hsame.
  { intros w' ->. exists d. split; [done | lia]. }
  unfold uploadDocument.
  destruct (negb (Js.includes _ _)); [by apply Hsame|].
  destruct file as [f|]; [|by apply Hsame].
  destruct auth as [| |decoded]; [by apply Hsame | by apply Hsame |].
  destruct (findDriver decoded w) as [[id0 d0]|] eqn:Hf; [|by apply Hsame].
  apply findDriver_lookup in Hf.
  set (w1 := match default ∅ (Driver.documents d0) !! documentType with
             | Some _ => _ | None => w end).
  assert (drivers w1 = drivers w) as Hw1.
  { subst w1. repeat case_match; reflexivity. }
  destruct (f_path f) as [path|]; [|by apply Hsame].
  destruct (negb (Js.truthy (Some path))); [by apply Hsame|].
  destruct saveOk.
  - cbn [snd]. unfold with_drivers, Mongo.save. cbn [drivers].
    rewrite Hw1. destruct (decide (id0 = id)) as [->|Hne].
    + rewrite lookup_insert_eq. eexists. split; [done|].
      assert (d0 = d) as -> by congruence.
      match goal with |- context [if ?c then _ else _] => destruct c eqn:Hc end.
      * apply step_guard in Hc. cbn [Driver.registrationStep Driver.set_documents] in Hc.
        assert (stepIndex (Some "documents_uploading") = 3%Z) as E by reflexivity.
        cbn [Driver.registrationStep Driver.set_registrationStep]. rewrite E. lia.
      * cbn [Driver.registrationStep Driver.set_documents]. lia.
    + rewrite lookup_insert_ne by done. exists d. split; [done | lia].
  - cbn [snd]. apply Hsame. repeat case_match; by rewrite <- Hw1.
Qed.

Lemma uploadDocument_effectiveRank auth documentType file now saveOk w id ts :
  is_Some (drivers w !! id) →
  (effectiveRank id ts w
   ≤ effectiveRank id ts (uploadDocument auth documentType file now saveOk w).2)%Z.
Proof.
  intros [d Hd].
  destruct (uploadDocument_drivers auth documentType file now saveOk w id d Hd)
    as (d' & Hd' & Hle).
  unfold effectiveRank, effectiveStep. rewrite Hd, Hd'. cbn [fmap option_fmap option_map].
  rewrite !effectiveRank_max. lia.
Qed.

(** *** UploadDocument *)

(** No path through [uploadDocument] hands anything to the notification
    sink. *)
Lemma uploadDocument_notifications auth documentType file now saveOk w :
  notifications (uploadDocument auth documentType file now saveOk w).2
  = notifications w.
Proof.
  unfold uploadDocument.
  repeat (case_match; try reflexivity); simplify_eq; reflexivity.
Qed.

(** C8 fails on the handler: a successful upload (valid document type,
    blob persisted by the middleware, driver record written) answers 200
    and stores the document record, but emits no document_uploaded
    notification; no outcome of [uploadDocument] emits one. *)
Theorem uploadDocument_success_emits_nothing :
  let r := uploadDocument (Bearer (continuation "earn_type_completed"))
             "profilePhoto" (Some photo) 3000 true (with_driver ready_driver) in
  code r.1 = 200
  ∧ (∃ d rec, drivers r.2 !! 1%N = Some d ∧ Driver.documents d ≫= (.!! "profilePhoto") = Some rec
              ∧ Driver.url rec = "https://res.cloudinary.com/driver-documents/me.png"
              ∧ Driver.uploadedAt rec = 3000%Z)
  ∧ notifications r.2 = []
  ∧ (∀ auth documentType file now saveOk w,
       filter (λ n, NotificationService.ntype n = "document_uploaded")
              (notifications (uploadDocument auth documentType file now saveOk w).2)
       = filter (λ n, NotificationService.ntype n = "document_uploaded")
                (notifications w)).
Proof.
  cbv zeta. split_and!.
  - vm_compute. reflexivity.
  - eexists _, _. vm_compute. split_and!; reflexivity.
  - vm_compute. reflexivity.
  - intros. by rewrite uploadDocument_notifications.
Qed.

(** *** One-time codes *)

Lemma findByPhone_None ph w :
  findByPhone ph (drivers w) = None ↔ ¬ registeredPhone ph w.
Proof.
  unfold findByPhone, registeredPhone. rewrite findOne_None. split.
  - intros H (id & d & Hd & Hp). specialize (H id d Hd).
    by rewrite bool_decide_eq_false in H.
  - intros H id d Hd. apply bool_decide_eq_false. intros Hp.
    apply H. by exists id, d.
Qed.

Lemma findByPhone_Some ph w :
  is_Some (findByPhone ph (drivers w)) ↔ registeredPhone ph w.
Proof.
  split.
  - intros [[id d] H]. apply findOne_Some in H as [Hd Hp].
    apply bool_decide_eq_true in Hp. by exists id, d.
  - intros (id & d & Hd & Hp).
    apply (findOne_is_Some _ _ id d); [done|]. by apply bool_decide_eq_true.
Qed.

Lemma truthy_Some ph : ph ≠ "" → Js.truthy (Some ph) = true.
Proof. by destruct ph. Qed.

Lemma filter_iff_elem_of {A} (P Q : A → Prop) `{!∀ x, Decision (P x)}
    `{!∀ x, Decision (Q x)} (l : list A) :
  (∀ x, x ∈ l → P x ↔ Q x) → filter P l = filter Q l.
Proof.
  induction l as [|x l IH]; intros Hl; [done|].
  rewrite !filter_cons.
  rewrite IH by (intros y Hy; apply Hl; by right).
  destruct (Hl x) as [H1 H2]; [by left|].
  repeat case_decide; tauto.
Qed.

Lemma deleteRegistrationOtps_gone ph c :
  filter (registrationCodeOf ph) (deleteRegistrationOtps ph c) = [].
Proof.
  unfold deleteRegistrationOtps. rewrite list_filter_filter.
  induction c as [|o c IH]; [done|].
  rewrite filter_cons. case_decide as Hn; [|done].
  unfold registrationCodeOf in Hn. tauto.
Qed.

Lemma deleteRegistrationOtps_kept ph c :
  filter (λ o, ¬ registrationCodeOf ph o) (deleteRegistrationOtps ph c)
  = filter (λ o, ¬ registrationCodeOf ph o) c.
Proof.
  unfold deleteRegistrationOtps. rewrite list_filter_filter.
  apply list_filter_iff. intros o. unfold registrationCodeOf. tauto.
Qed.

(** C9: for every phone number and every call, the one-time code issued
    by InitiatePhoneVerification ([registerPhone]) and by ResendOtp is the
    constant string "123456", whatever the phone number, the time and the
    state, and that code is part of the response body.  (An initiate call
    for a registered phone issues no code.) *)
Theorem otp_is_constant (ph : string) (now : Z) (w : World) (Hph : ph ≠ "") :
  let r := registerPhone (Some ph) now w in
  let s := resendOtp (Some ph) now w in
  let issuedCode := Otp.mkDoc ph "123456" "driver_registration" (now + 300000) in
  generateOTP = "123456"
  ∧ ((registeredPhone ph w ∧ code r.1 = 409 ∧ otp r.1 = None ∧ r.2 = w)
     ∨ (¬ registeredPhone ph w ∧ code r.1 = 200 ∧ otp r.1 = Some "123456"
        ∧ last (otps r.2) = Some issuedCode))
  ∧ (code s.1 = 200 ∧ otp s.1 = Some "123456" ∧ last (otps s.2) = Some issuedCode).
Proof.
  cbv zeta. split; [done|]. split.
  - unfold registerPhone. rewrite (truthy_Some ph Hph). cbn [negb].
    destruct (findByPhone ph (drivers w)) as [x|] eqn:E.
    + left. split_and!; try done. apply findByPhone_Some. by exists x.
    + right. apply findByPhone_None in E. cbn [fst snd otps with_otps code otp].
      split_and!; try done. by rewrite last_snoc.
  - unfold resendOtp. rewrite (truthy_Some ph Hph).
    cbn [negb fst snd otps with_otps code otp].
    split_and!; try done. by rewrite last_snoc.
Qed.

(** C9, instantiated: a first request for an unregistered phone. *)
Lemma otp_is_constant_witness :
  otp (registerPhone (Some "+15550002") 1000 empty_world).1 = Some "123456"
  ∧ otp (resendOtp (Some "+15550002") 2000 empty_world).1 = Some "123456".
Proof.
  destruct (otp_is_constant "+15550002" 1000 empty_world) as (_ & Hr & _);
    [discriminate|].
  destruct (otp_is_constant "+15550002" 2000 empty_world) as (_ & _ & Hs);
    [discriminate|].
  split; [|apply Hs].
  destruct Hr as [(_ & Hc & _) | (_ & _ & Ho & _)]; [discriminate Hc | exact Ho].
Defined.

(** C10: for every phone number, also one that belongs to an existing
    driver, ResendOtp succeeds: it deletes the prior registration codes of
    that phone and stores a fresh one, touching no other code and no
    driver, and never answers Conflict; [registerPhone] answers Conflict
    (409) for a registered phone and changes nothing.  The duplicate-phone
    guard is in the initiate operation only. *)
Theorem resend_has_no_duplicate_phone_guard (ph : string) (now : Z) (w : World)
    (Hph : ph ≠ "") :
  let s := resendOtp (Some ph) now w in
  let r := registerPhone (Some ph) now w in
  let fresh := Otp.mkDoc ph "123456" "driver_registration" (now + 300000) in
  code s.1 = 200
  ∧ filter (registrationCodeOf ph) (otps s.2) = [fresh]
  ∧ filter (λ o, ¬ registrationCodeOf ph o) (otps s.2)
    = filter (λ o, ¬ registrationCodeOf ph o) (otps w)
  ∧ ((∀ o, o ∈ otps w → Otp.otype o = "driver_registration") →
     filter (λ o, Otp.phone o = ph) (otps s.2) = [fresh])
  ∧ drivers s.2 = drivers w
  ∧ (registeredPhone ph w → code r.1 = 409 ∧ r.2 = w ∧ code s.1 ≠ 409).
Proof.
  cbv zeta.
  assert (resendOtp (Some ph) now w
          = (mkResponse 200 "OTP resent successfully" (Some "123456")
               None None None [] [] [] [] [] None,
             with_otps (deleteRegistrationOtps ph (otps w)
                          ++ [Otp.mkDoc ph "123456" "driver_registration"
                                (now + 300000)]) w)) as ->.
  { unfold resendOtp. by rewrite (truthy_Some ph Hph). }
  cbn [fst snd code otps with_otps drivers].
  assert (filter (registrationCodeOf ph)
            (deleteRegistrationOtps ph (otps w)
               ++ [Otp.mkDoc ph "123456" "driver_registration" (now + 300000)])
          = [Otp.mkDoc ph "123456" "driver_registration" (now + 300000)]) as Hfresh.
  { rewrite filter_app, deleteRegistrationOtps_gone, filter_cons.
    by case_decide as Hn; [|exfalso; apply Hn]. }
  split_and!; try done.
  - rewrite filter_app, deleteRegistrationOtps_kept, filter_cons.
    case_decide as Hn; [exfalso; by apply Hn|]. by rewrite app_nil_r.
  - intros Hall. etrans; [|exact Hfresh]. apply filter_iff_elem_of.
    intros o Ho. unfold registrationCodeOf. split; [|tauto].
    intros Hp. split; [done|].
    apply elem_of_app in Ho as [Ho|Ho].
    + apply Hall. unfold deleteRegistrationOtps in Ho.
      by apply list_elem_of_filter in Ho as [_ Ho].
    + apply list_elem_of_singleton in Ho. by subst.
  - intros Hreg. apply findByPhone_Some in Hreg as [x Hx].
    unfold registerPhone. rewrite (truthy_Some ph Hph), Hx. done.
Qed.

(** C10, instantiated on the phone of an existing driver. *)
Lemma resend_has_no_duplicate_phone_guard_witness :
  code (resendOtp (Some "+15550001") 1000 (with_driver ready_driver)).1 = 200
  ∧ code (registerPhone (Some "+15550001") 1000 (with_driver ready_driver)).1 = 409.
Proof.
  destruct (resend_has_no_duplicate_phone_guard "+15550001" 1000
              (with_driver ready_driver)) as (Hs & _ & _ & _ & _ & Hr);
    [discriminate|].
  split; [exact Hs|]. apply Hr. by exists 1%N, ready_driver.
Defined.

End RegistrationFacts.

(** ** More on the delivery lifecycle *)

Section LifecycleFacts.
Import Delivery DeliveryController Spec Lifecycle.

Lemma forward_refl s : forward s s.
Proof. by destruct s. Qed.

Lemma forward_trans s1 s2 s3 : forward s1 s2 → forward s2 s3 → forward s1 s3.
Proof. by destruct s1, s2, s3. Qed.

Lemma evolves_refl d : evolves d d.
Proof. split; auto using forward_refl. Qed.

Lemma evolves_trans d1 d2 d3 : evolves d1 d2 → evolves d2 d3 → evolves d1 d3.
Proof.
  intros [S1 A1 P1 C1 D1 T1 U1 V1] [S2 A2 P2 C2 D2 T2 U2 V2].
  split; try congruence.
  - by eapply forward_trans.
  - intros x Hx. eauto.
  - intros H. rewrite T2, T1; [done..|].
    intros E. rewrite E in S1. by destruct (status d1).
  - intros H H'. rewrite U2, U1; [done..| |];
      intros E; rewrite E in S1; by destruct (status d1).
  - intros H H' H''. specialize (V1 H H' H''). subst d2. by apply V2.
Qed.

Lemma transition_evolves w d d' : transition w d d' → evolves d d'.
Proof.
  intros [driver now d0 _ Hs Hu | driver now d0 Ho Hs | driver now d0 Ho Hs];
    split; simpl; rewrite ?Hs; try done.
  - intros x Hx. destruct Hu; congruence.
Qed.

Lemma run_evolves o w id d :
  deliveries w !! id = Some d →
  ∃ d', deliveries (run o w).2 !! id = Some d' ∧ evolves d d'.
Proof.
  intros Hd.
  destruct (run_step o w) as [-> | (id' & d0 & d' & Hd0 & Ht & ->)].
  - exists d. split; [done | apply evolves_refl].
  - destruct (decide (id' = id)) as [->|Hne].
    + exists d'. rewrite lookup_insert_eq. split; [done|].
      assert (d0 = d) as -> by congruence. by eapply transition_evolves.
    + exists d. rewrite lookup_insert_ne by done. split; [done | apply evolves_refl].
Qed.

Lemma run_all_evolves ops w id d :
  deliveries w !! id = Some d →
  ∃ d', deliveries (run_all ops w) !! id = Some d' ∧ evolves d d'.
Proof.
  revert w d. induction ops as [|o ops IH]; intros w d Hd.
  - exists d. split; [done | apply evolves_refl].
  - destruct (run_evolves o w id d Hd) as (d1 & Hd1 & E1).
    destruct (IH _ _ Hd1) as (d2 & Hd2 & E2).
    exists d2. split; [done | by eapply evolves_trans].
Qed.

Lemma run_absent o w id :
  deliveries w !! id = None → deliveries (run o w).2 !! id = None.
Proof.
  intros Hd.
  destruct (run_step o w) as [-> | (id' & d0 & d' & Hd0 & Ht & ->)]; [done|].
  rewrite lookup_insert_ne; [done|]. intros ->. congruence.
Qed.

Lemma run_all_absent ops w id :
  deliveries w !! id = None → deliveries (run_all ops w) !! id = None.
Proof.
  revert w. induction ops as [|o ops IH]; intros w Hd; [done|].
  by apply IH, run_absent.
Qed.

(** X1: whatever sequence of ClaimDelivery, StartDelivery and
    CompleteDelivery calls runs, no delivery is created or removed, the
    status of a delivery only moves forward along upcoming, accepted,
    in-transit, completed (pending and cancelled deliveries keep their
    status), its sender, price and creation time stay, and a driver id,
    once set, is never replaced or cleared. *)
Theorem lifecycle_only_moves_forward (ops : list Op) (w : World) (id : ObjectId) :
  match deliveries w !! id with
  | Some d =>
      ∃ d', deliveries (run_all ops w) !! id = Some d'
            ∧ forward (status d) (status d')
            ∧ senderId d' = senderId d ∧ price d' = price d
            ∧ createdAt d' = createdAt d
            ∧ ∀ x, driverId d = Ref x → driverId d' = Ref x
  | None => deliveries (run_all ops w) !! id = None
  end.
Proof.
  destruct (deliveries w !! id) as [d|] eqn:Hd.
  - destruct (run_all_evolves ops w id d Hd) as (d' & Hd' & [S A P C D _ _ _]).
    exists d'. by split_and!.
  - by apply run_all_absent.
Qed.

(** X2: each timestamp is written by its own transition only.  Over any
    sequence of delivery operations, acceptedAt of a delivery that has
    left upcoming does not change, startedAt of a delivery that is
    in-transit or beyond does not change, and a completed, cancelled or
    pending delivery is not modified at all. *)
Theorem timestamps_are_set_once (ops : list Op) (w : World) (id : ObjectId)
    (d : Doc) (Hd : deliveries w !! id = Some d) :
  ∃ d', deliveries (run_all ops w) !! id = Some d'
        ∧ (status d ≠ Upcoming → acceptedAt d' = acceptedAt d)
        ∧ (status d = InTransit ∨ status d = Completed → startedAt d' = startedAt d)
        ∧ (status d = Completed ∨ status d = Cancelled ∨ status d = Pending →
           d' = d).
Proof.
  destruct (run_all_evolves ops w id d Hd) as (d' & Hd' & [_ _ _ _ _ T U V]).
  exists d'. split_and!; [done | done | |].
  - intros [H|H]; apply U; rewrite H; discriminate.
  - intros [H|[H|H]]; apply V; rewrite H; discriminate.
Qed.

(** X2, instantiated: the delivery that driver 7 holds is started and
    completed, with a second start and a foreign claim in between; its
    acceptedAt stays unset as it was. *)
Lemma timestamps_are_set_once_witness :
  ∃ d', deliveries
          (run_all [StartDelivery 7%N (WellFormed 1%N) 600;
                    ClaimDelivery 8%N (WellFormed 1%N) 650;
                    StartDelivery 7%N (WellFormed 1%N) 660;
                    CompleteDelivery 7%N (WellFormed 1%N) 700] one_held) !! 1%N
        = Some d'
        ∧ acceptedAt d' = None.
Proof.
  destruct (timestamps_are_set_once
              [StartDelivery 7%N (WellFormed 1%N) 600;
               ClaimDelivery 8%N (WellFormed 1%N) 650;
               StartDelivery 7%N (WellFormed 1%N) 660;
               CompleteDelivery 7%N (WellFormed 1%N) 700]
              one_held 1%N (parcel Accepted (Ref 7%N) 25 100) eq_refl)
    as (d' & Hd' & Ha & _).
  exists d'. split; [exact Hd'|]. apply Ha. discriminate.
Defined.

(** *** The happy path *)

Lemma holdsActive_insert driver id d' w :
  deliveries w !! id ≠ None →
  ¬ holdsActive driver w → ¬ activeWith driver d' →
  ¬ holdsActive driver (with_deliveries (<[id := d']> (deliveries w)) w).
Proof.
  intros _ Hfree Hd' (j & dj & Hj & Ha). simpl in Hj.
  destruct (decide (id = j)) as [->|Hne].
  - rewrite lookup_insert_eq in Hj. by simplify_eq.
  - rewrite lookup_insert_ne in Hj by done. apply Hfree. by exists j, dj.
Qed.

(** X3: the happy path.  For a driver who holds no active delivery and a
    delivery that is upcoming and unclaimed, ClaimDelivery, StartDelivery
    and CompleteDelivery in this order all succeed; the delivery ends
    completed with the driver attached and the three timestamps equal to
    the times of the three calls; between claim and completion the driver
    holds the delivery, and afterwards is free again. *)
Theorem happy_path (driver id : ObjectId) (t1 t2 t3 : Z) (w : World) (d : Doc)
    (Hfree : ¬ holdsActive driver w)
    (Hd : deliveries w !! id = Some d)
    (Hs : status d = Upcoming)
    (Hu : unset d) :
  let r1 := acceptDelivery driver (WellFormed id) t1 w in
  let r2 := startDelivery driver (WellFormed id) t2 r1.2 in
  let r3 := completeDelivery driver (WellFormed id) t3 r2.2 in
  success r1.1 = true ∧ success r2.1 = true ∧ success r3.1 = true
  ∧ holdsActive driver r1.2 ∧ holdsActive driver r2.2 ∧ ¬ holdsActive driver r3.2
  ∧ ∃ d', deliveries r3.2 !! id = Some d'
          ∧ status d' = Completed ∧ driverId d' = Ref driver
          ∧ acceptedAt d' = Some t1 ∧ startedAt d' = Some t2
          ∧ completedAt d' = Some t3.
Proof.
  cbv zeta.
  rewrite (acceptDelivery_claims driver id t1 w d Hfree Hd Hs Hu). cbn [fst snd].
  set (d1 := claimUpdate driver t1 d).
  set (w1 := notify _ _).
  assert (deliveries w1 = <[id := d1]> (deliveries w)) as Hw1 by done.
  assert (deliveries w1 !! id = Some d1) as Hd1
    by (rewrite Hw1; apply lookup_insert_eq).
  destruct (startDelivery_cases driver id t2 w1)
    as [[_ Hno] | (d1' & Hd1' & _ & _ & E2)].
  { exfalso. by apply (Hno d1 Hd1). }
  assert (d1' = d1) as -> by congruence. rewrite E2. cbn [fst snd].
  set (d2 := startUpdate t2 d1).
  set (w2 := notify _ _).
  assert (deliveries w2 = <[id := d2]> (deliveries w1)) as Hw2 by done.
  assert (deliveries w2 !! id = Some d2) as Hd2
    by (rewrite Hw2; apply lookup_insert_eq).
  destruct (completeDelivery_cases driver id t3 w2)
    as [[_ Hno] | (d2' & Hd2' & _ & _ & E3 & Hc & _)].
  { exfalso. by apply (Hno d2 Hd2). }
  assert (d2' = d2) as -> by congruence. rewrite E3, Hc.
  split_and!; try done.
  - exists id, d1. split; [done|]. split; [done | by left].
  - exists id, d2. split; [done|]. split; [done | by right].
  - intros (j & dj & Hj & Ha). rewrite Hc in Hj.
    destruct (decide (j = id)) as [->|Hne].
    + rewrite lookup_insert_eq in Hj. simplify_eq. destruct Ha as [_ [?|?]]; done.
    + rewrite lookup_insert_ne in Hj by done.
      rewrite Hw2, lookup_insert_ne in Hj by done.
      rewrite Hw1, lookup_insert_ne in Hj by done.
      apply Hfree. by exists j, dj.
  - exists (completeUpdate t3 d2). rewrite lookup_insert_eq. by split_and!.
Qed.

(** X3, instantiated on the first of two upcoming deliveries. *)
Lemma happy_path_witness :
  success (completeDelivery 7%N (WellFormed 1%N) 700
             (startDelivery 7%N (WellFormed 1%N) 600
                (acceptDelivery 7%N (WellFormed 1%N) 500 two_upcoming).2).2).1 = true.
Proof.
  destruct (happy_path 7%N 1%N 500 600 700 two_upcoming (parcel Upcoming Null 25 100))
    as (_ & _ & H & _);
    [by apply no_active_free | reflexivity | reflexivity | by left | exact H].
Defined.

(** X4: StartDelivery succeeds if and only if the delivery with that id
    is accepted and attached to the caller.  In every other case (no such
    delivery, another driver's delivery, a delivery not yet claimed, one
    already started or completed) and for a malformed id the answer is a
    400 and the state is left as it was; the same holds for a
    CompleteDelivery that finds no in-transit delivery of the caller. *)
Theorem start_requires_owner_and_accepted (driver : ObjectId) (p : IdParam)
    (now : Z) (w : World) :
  let r := startDelivery driver p now w in
  let c := completeDelivery driver p now w in
  (success r.1 = true ↔
   ∃ id d, p = WellFormed id ∧ deliveries w !! id = Some d
           ∧ driverId d = Ref driver ∧ status d = Accepted)
  ∧ (success r.1 = false → code r.1 = 400 ∧ r.2 = w)
  ∧ (success c.1 = false → code c.1 = 400 ∧ c.2 = w)
  ∧ (success r.1 = true → success c.1 = false).
Proof.
  cbv zeta. destruct p as [|id].
  { simpl. split_and!; try done. split; [done|]. by intros (? & ? & ? & _). }
  assert (success (startDelivery driver (WellFormed id) now w).1 = true ↔
          ∃ d, deliveries w !! id = Some d ∧ driverId d = Ref driver
               ∧ status d = Accepted) as Hiff.
  { destruct (startDelivery_cases driver id now w)
      as [[E Hno] | (d & Hd & Ho & Hs & E)]; rewrite E; cbn [fst success].
    - split; [done|]. intros (d & Hd & Ho & Hs). exfalso. by apply (Hno d Hd).
    - split; [|done]. intros _. by exists d. }
  split_and!.
  - rewrite Hiff. split.
    + intros (d & ?). by exists id, d.
    + intros (i & d & [= <-] & ?). by exists d.
  - destruct (startDelivery_cases driver id now w)
      as [[E _] | (d & _ & _ & _ & E)]; rewrite E; [done | discriminate].
  - destruct (completeDelivery_cases driver id now w)
      as [[E _] | (d & _ & _ & _ & E & _)]; rewrite E; [done | discriminate].
  - intros (d & Hd & _ & Hs)%Hiff.
    destruct (completeDelivery_cases driver id now w)
      as [[E _] | (d' & Hd' & _ & Hs' & _)]; [by rewrite E|].
    exfalso. congruence.
Qed.

End LifecycleFacts.

(** ** The delivery directory and the delivery counter *)

Section DirectoryFacts.
Import Delivery DeliveryController Spec DeliveryDirectory Lifecycle Ledger.

Lemma filter_length_insert {A} (P : A → Prop) `{!∀ kv : ObjectId * A, Decision (P kv.2)}
    (m : gmap ObjectId A) i d d' :
  m !! i = Some d →
  length (filter (λ kv : ObjectId * A, P kv.2) (map_to_list (<[i := d']> m)))
  + (if decide (P (i, d).2) then 1 else 0)
  = length (filter (λ kv : ObjectId * A, P kv.2) (map_to_list m))
    + (if decide (P (i, d').2) then 1 else 0).
Proof.
  intros Hi.
  rewrite <- (insert_delete_eq m i d').
  rewrite (map_to_list_insert (delete i m) i d') by apply lookup_delete_eq.
  rewrite <- (map_to_list_delete m i d Hi).
  rewrite !filter_cons. simpl.
  destruct (decide (P d)), (decide (P d')); simpl; lia.
Qed.

(** One operation changes the counter of a driver exactly as it changes
    the number of deliveries attached to that driver. *)
Lemma run_ledger o w x :
  is_Some (drivers w !! x) →
  is_Some (drivers (run o w).2 !! x)
  ∧ (counter x (run o w).2 - attachedCount x (run o w).2
     = counter x w - attachedCount x w)%Z.
Proof.
  intros [dx Hx].
  destruct o as [driver [|id] now | driver [|id] now | driver [|id] now];
    try (split; [by exists dx | done]); cbn [run].
  - destruct (acceptDelivery_cases driver id now w)
      as [-> | [-> | (d & Hfree & Hd & Hs & Hu & _ & _)]];
      [split; [by exists dx | done].. |].
    rewrite (acceptDelivery_claims driver id now w d Hfree Hd Hs Hu).
    cbn [snd]. unfold counter, attachedCount, notify, with_drivers, with_deliveries.
    cbn [drivers deliveries].
    pose proof (filter_length_insert (λ e : Doc, driverId e = Ref x)
                  (deliveries w) id d (claimUpdate driver now d) Hd) as Hlen.
    cbn [snd] in Hlen.
    assert (driverId d ≠ Ref x) as Hnx by (destruct Hu; congruence).
    destruct (decide (driverId d = Ref x)); [done|].
    destruct (decide (driver = x)) as [->|Hne].
    + rewrite lookup_alter_eq, Hx. cbn [fmap option_fmap option_map default].
      split; [by eexists|].
      destruct (decide (driverId (claimUpdate x now d) = Ref x)); [|done].
      simpl. lia.
    + rewrite lookup_alter_ne by done. rewrite Hx.
      split; [by eexists|].
      destruct (decide (driverId (claimUpdate driver now d) = Ref x)) as [E|_].
      * simpl in E. congruence.
      * simpl. lia.
  - destruct (startDelivery_cases driver id now w)
      as [[-> _] | (d & Hd & Ho & Hs & ->)]; [split; [by exists dx | done]|].
    cbn [snd]. unfold counter, attachedCount, notify, with_deliveries.
    cbn [drivers deliveries]. split; [by exists dx|].
    pose proof (filter_length_insert (λ e : Doc, driverId e = Ref x)
                  (deliveries w) id d (startUpdate now d) Hd) as Hlen.
    cbn [snd driverId startUpdate] in Hlen.
    destruct (decide (driverId d = Ref x)); lia.
  - destruct (completeDelivery_cases driver id now w)
      as [[-> _] | (d & Hd & Ho & Hs & _ & Hc & Hdr & _)];
      [split; [by exists dx | done]|].
    unfold counter, attachedCount. rewrite Hdr, Hc. split; [by exists dx|].
    pose proof (filter_length_insert (λ e : Doc, driverId e = Ref x)
                  (deliveries w) id d (completeUpdate now d) Hd) as Hlen.
    cbn [snd driverId completeUpdate] in Hlen.
    destruct (decide (driverId d = Ref x)); lia.
Qed.

(** X5: the lifetime counter counts claimed deliveries.  For a driver
    with a record, over any sequence of delivery operations the counter
    totalDeliveries grows exactly by the number of deliveries that became
    attached to the driver: counter minus attached deliveries is
    constant. *)
Theorem counter_tracks_claims (ops : list Op) (w : World) (x : ObjectId)
    (Hx : is_Some (drivers w !! x)) :
  (counter x (run_all ops w) - attachedCount x (run_all ops w)
   = counter x w - attachedCount x w)%Z.
Proof.
  revert w Hx. induction ops as [|o ops IH]; intros w Hx; [done|].
  destruct (run_ledger o w x Hx) as [Hx' E].
  cbn [run_all foldl]. change (foldl _ ?a ops) with (run_all ops a).
  rewrite IH by done. exact E.
Qed.

(** X5, instantiated: driver 7 (count 3) completes delivery 1 and claims
    delivery 2; the count is 5 and two deliveries are attached. *)
Lemma counter_tracks_claims_witness :
  (counter 7%N (run_all [ClaimDelivery 7%N (WellFormed 1%N) 500;
                         StartDelivery 7%N (WellFormed 1%N) 600;
                         CompleteDelivery 7%N (WellFormed 1%N) 700;
                         ClaimDelivery 7%N (WellFormed 2%N) 800] fleet)
   - attachedCount 7%N (run_all [ClaimDelivery 7%N (WellFormed 1%N) 500;
                                 StartDelivery 7%N (WellFormed 1%N) 600;
                                 CompleteDelivery 7%N (WellFormed 1%N) 700;
                                 ClaimDelivery 7%N (WellFormed 2%N) 800] fleet)
   = counter 7%N fleet - attachedCount 7%N fleet)%Z
  ∧ counter 7%N (run_all [ClaimDelivery 7%N (WellFormed 1%N) 500;
                          StartDelivery 7%N (WellFormed 1%N) 600;
                          CompleteDelivery 7%N (WellFormed 1%N) 700;
                          ClaimDelivery 7%N (WellFormed 2%N) 800] fleet) = 5%Z.
Proof.
  split; [|vm_compute; reflexivity].
  apply (counter_tracks_claims _ fleet 7%N). vm_compute. by eexists.
Defined.

(** *** ListAvailable of the schema and ClaimDelivery *)

(** X6: the static [findAvailable] of the Delivery schema lists exactly
    the deliveries that a driver without an active delivery can claim:
    a delivery is in the list if and only if ClaimDelivery on it by such a
    driver succeeds; and the list is ordered newest first. *)
Theorem findAvailable_lists_the_claimable (driver : ObjectId) (w : World)
    (Hfree : ¬ holdsActive driver w) :
  (∀ i, (∃ d, (i, d) ∈ findAvailable (deliveries w))
        ↔ ∀ now, success (acceptDelivery driver (WellFormed i) now w).1 = true)
  ∧ StronglySorted (λ a b, (createdAt b.2 ≤ createdAt a.2)%Z)
      (findAvailable (deliveries w)).
Proof.
  destruct (findAvailable_spec (deliveries w)) as [Hin Hsorted].
  split; [|exact Hsorted].
  intros i. split.
  - intros (d & (Hd & Hs & Hu)%Hin) now.
    by rewrite (acceptDelivery_claims driver i now w d).
  - intros Hok. specialize (Hok 0%Z).
    destruct (acceptDelivery_cases driver i 0%Z w)
      as [E | [E | (d & _ & Hd & Hs & Hu & _)]].
    + rewrite E in Hok. discriminate.
    + rewrite E in Hok. discriminate.
    + exists d. by apply Hin.
Qed.

(** X6, instantiated: in the state with a cancelled and an upcoming
    unclaimed delivery, driver 7 can claim delivery 2, which is listed. *)
Lemma findAvailable_lists_the_claimable_witness :
  success (acceptDelivery 7%N (WellFormed 2%N) 500 one_cancelled).1 = true.
Proof.
  destruct (findAvailable_lists_the_claimable 7%N one_cancelled) as [H _];
    [by apply no_active_free|].
  apply H. exists (parcel Upcoming Null 30 200).
  apply list_elem_of_In. vm_compute. by left.
Defined.

(** *** GetActiveDelivery *)

Lemma findOne_ext {A} (q q' : A → bool) (c : gmap ObjectId A) :
  (∀ d, q d = q' d) → Mongo.findOne q c = Mongo.findOne q' c.
Proof.
  intros H. unfold Mongo.findOne, Mongo.find. f_equal.
  apply list_filter_iff. intros [i d]. simpl. by rewrite H.
Qed.

Lemma active_query_eq driver d :
  (driverId_is driver d || driverId_is driver d) && status_active d
  = activeFor driver d.
Proof. unfold activeFor. by destruct (driverId_is driver d). Qed.

(** X7: in a state where every driver holds at most one active delivery,
    [getActiveDelivery] answers with a delivery exactly when it is the
    driver's accepted or in-transit delivery, and with none exactly when
    the driver holds none; it answers with a delivery exactly when
    ClaimDelivery by that driver is refused with Conflict. *)
Theorem getActiveDelivery_is_the_held_one (driver : ObjectId) (w : World)
    (Hinv : singleActive w) :
  let r := getActiveDelivery (Some driver) w in
  code r = 200
  ∧ (∀ i d, delivery r = Some (i, d) ↔
            deliveries w !! i = Some d ∧ activeWith driver d)
  ∧ (delivery r = None ↔ ¬ holdsActive driver w)
  ∧ (is_Some (delivery r) ↔
     ∀ id now, acceptDelivery driver (WellFormed id) now w = (Conflict, w)).
Proof.
  cbv zeta. unfold getActiveDelivery.
  rewrite (findOne_ext _ (activeFor driver) _ (active_query_eq driver)).
  destruct (Mongo.findOne (activeFor driver) (deliveries w)) as [[j dj]|] eqn:E.
  - pose proof E as [Hj Hq]%findOne_Some. apply activeFor_true in Hq.
    cbn [code delivery]. split_and!; [done | | |].
    + intros i d. split.
      * by intros [= <- <-].
      * intros [Hi Ha]. pose proof (proj1 (singleActive_alt w) Hinv) as Huniq.
        assert (i = j) as -> by (by eapply Huniq).
        by assert (d = dj) as -> by congruence.
    + split; [done|]. intros Hfree. exfalso. apply Hfree. by exists j, dj.
    + split; [|by eexists]. intros _ id now.
      apply acceptDelivery_conflict. by exists j, dj.
  - pose proof E as Hfree%findOne_active.
    cbn [code delivery]. split_and!; [done | | done |].
    + intros i d. split; [done|]. intros [Hi Ha]. exfalso. apply Hfree.
      by exists i, d.
    + split; [by intros [? ?]|]. intros Hc. exfalso.
      specialize (Hc 0%N 0%Z).
      destruct (acceptDelivery_cases driver 0%N 0%Z w)
        as [_ | [E' | (d & _ & _ & _ & _ & Hok & _)]].
      * unfold acceptDelivery in Hc. rewrite E in Hc.
        destruct (Mongo.findOneAndUpdate _ _ _ _) as [[?|] ?]; discriminate.
      * rewrite E' in Hc. discriminate.
      * rewrite Hc in Hok. discriminate.
Qed.

(** X7, instantiated on the state in which driver 7 holds delivery 1. *)
Lemma getActiveDelivery_is_the_held_one_witness :
  delivery (getActiveDelivery (Some 7%N) one_held)
  = Some (1%N, parcel Accepted (Ref 7%N) 25 100).
Proof.
  destruct (getActiveDelivery_is_the_held_one 7%N one_held) as (_ & H & _).
  - apply singleActive_alt. intros driver i j di dj Hi Hj [_ Hsi] [_ Hsj].
    apply elem_of_map_to_list, list_elem_of_In in Hi, Hj.
    vm_compute in Hi, Hj.
    destruct Hi as [[= <- <-]|[[= <- <-]|[]]]; destruct Hj as [[= <- <-]|[[= <- <-]|[]]];
      try reflexivity; destruct Hsi as [?|?]; destruct Hsj as [?|?]; discriminate.
  - apply H. split; [reflexivity|]. split; [reflexivity | by left].
Defined.

(** *** ListHistory *)

Lemma pages_concat {A} (l : list A) (n k : nat) :
  length l ≤ k * n →
  concat (map (λ i, take n (drop (i * n) l)) (seq 0 k)) = l.
Proof.
  revert l. induction k as [|k IH]; intros l Hlen.
  - destruct l; simpl in *; [done | lia].
  - rewrite <- cons_seq, <- fmap_S_seq. cbn [map concat].
    rewrite Nat.mul_0_l, drop_0.
    change (map ?f (S <$> ?l)) with (map f (map S l)). rewrite map_map.
    rewrite (map_ext _ (λ i, take n (drop (i * n) (drop n l)))).
    + rewrite IH; [apply take_drop|]. rewrite length_drop. lia.
    + intros i. rewrite drop_drop. f_equal.
Qed.

Lemma ceilDiv_bounds (t n : Z) :
  (0 ≤ t)%Z → (0 < n)%Z →
  (0 ≤ ceilDiv t n ∧ t ≤ ceilDiv t n * n ∧ ceilDiv t n * n < t + n)%Z.
Proof.
  intros Ht Hn. unfold ceilDiv.
  pose proof (Z.mul_div_le (- t) n Hn).
  pose proof (Z.mul_succ_div_gt (- t) n Hn).
  nia.
Qed.

Lemma getDriverDeliveryHistory_page x n k w :
  1 ≤ n → 1 ≤ k →
  getDriverDeliveryHistory x (Some (Z.of_nat k)) (Some (Z.of_nat n)) w
  = mkHistory 200 (take n (drop ((k - 1) * n) (fullHistory x w)))
      (Z.of_nat k)
      (ceilDiv (Z.of_nat (length (fullHistory x w))) (Z.of_nat n))
      (Z.of_nat (length (fullHistory x w))).
Proof.
  intros Hn Hk. unfold getDriverDeliveryHistory, parseIntOr.
  destruct (Z.eqb_spec (Z.of_nat k) 0); [lia|].
  destruct (Z.eqb_spec (Z.of_nat n) 0); [lia|].
  destruct (Z.ltb_spec ((Z.of_nat k - 1) * Z.of_nat n) 0); [nia|].
  assert (length (fullHistory x w) = Mongo.countDocuments (driverId_is x) (deliveries w))
    as Hlen.
  { unfold fullHistory, Mongo.sortDesc, Mongo.countDocuments.
    by rewrite merge_sort_Permutation. }
  rewrite <- Hlen. unfold fullHistory.
  replace (Z.of_nat k - 1)%Z with (Z.of_nat (k - 1)) by lia.
  by rewrite <- Nat2Z.inj_mul, Nat2Z.id, Zabs2Nat.id.
Qed.

(** X8: the pages of ListHistory partition the driver's history.  For a
    page size of at least 1 and pages counted from 1, every page answers
    200 with at most [limit] entries and reports the total and the number
    of pages ceil(total / limit); the pages 1 to totalPages, one after the
    other, are exactly the deliveries attached to the driver (of any
    status), newest first, each once; every later page is empty. *)
Theorem history_pages_partition (x : ObjectId) (n : nat) (w : World)
    (Hn : 1 ≤ n) :
  let h k := getDriverDeliveryHistory x (Some (Z.of_nat k)) (Some (Z.of_nat n)) w in
  let pages := Z.to_nat (totalPages (h 1)) in
  (∀ k, 1 ≤ k →
     h_code (h k) = 200 ∧ length (h_deliveries (h k)) ≤ n
     ∧ totalDeliveries (h k) = Z.of_nat (length (fullHistory x w))
     ∧ totalPages (h k) = Z.of_nat pages)
  ∧ concat (map (λ k, h_deliveries (h (S k))) (seq 0 pages)) = fullHistory x w
  ∧ (∀ k, pages < k → h_deliveries (h k) = [])
  ∧ (length (fullHistory x w) ≤ pages * n < length (fullHistory x w) + n)
  ∧ (∀ i d, (i, d) ∈ fullHistory x w ↔
            deliveries w !! i = Some d ∧ driverId d = Ref x)
  ∧ StronglySorted (λ a b, (createdAt b.2 ≤ createdAt a.2)%Z) (fullHistory x w).
Proof.
  cbv beta zeta.
  rewrite (getDriverDeliveryHistory_page x n 1 w Hn (le_n 1)). cbn [totalPages].
  set (T := length (fullHistory x w)).
  destruct (ceilDiv_bounds (Z.of_nat T) (Z.of_nat n)) as (H0 & H1 & H2); [lia..|].
  set (P := ceilDiv (Z.of_nat T) (Z.of_nat n)) in *.
  assert (Z.of_nat (Z.to_nat P) = P) as HP by lia.
  assert (T ≤ Z.to_nat P * n < T + n) as Hb by nia.
  split_and!.
  - intros k Hk. rewrite (getDriverDeliveryHistory_page x n k w Hn Hk).
    cbn [h_code h_deliveries totalDeliveries totalPages].
    split_and!; [done | | done | by rewrite HP].
    rewrite length_take. lia.
  - rewrite (map_ext _ (λ k, take n (drop (k * n) (fullHistory x w)))).
    + apply pages_concat. fold T. lia.
    + intros k. rewrite (getDriverDeliveryHistory_page x n (S k) w Hn) by lia.
      cbn [h_deliveries]. do 2 f_equal. lia.
  - intros k Hk. rewrite (getDriverDeliveryHistory_page x n k w Hn) by lia.
    cbn [h_deliveries]. rewrite drop_ge; [apply take_nil|]. fold T. nia.
  - apply Hb.
  - apply Hb.
  - intros i d. unfold fullHistory.
    by rewrite sortDesc_elem_of, find_elem_of, driverId_is_true.
  - apply sortDesc_sorted.
Qed.

(** X8, instantiated: after driver 7 has claimed and completed delivery 1
    and claimed delivery 2, a page size of 1 gives two pages, the newer
    delivery first. *)
Lemma history_pages_partition_witness :
  (historyPage 7%N 1 1
     (run_all [ClaimDelivery 7%N (WellFormed 1%N) 500;
               StartDelivery 7%N (WellFormed 1%N) 600;
               CompleteDelivery 7%N (WellFormed 1%N) 700;
               ClaimDelivery 7%N (WellFormed 2%N) 800] fleet)).*1 = [2%N]
  ∧ length (fullHistory 7%N
              (run_all [ClaimDelivery 7%N (WellFormed 1%N) 500;
                        StartDelivery 7%N (WellFormed 1%N) 600;
                        CompleteDelivery 7%N (WellFormed 1%N) 700;
                        ClaimDelivery 7%N (WellFormed 2%N) 800] fleet))
    ≤ Z.to_nat (totalPages
                  (getDriverDeliveryHistory 7%N (Some 1%Z) (Some 1%Z)
                     (run_all [ClaimDelivery 7%N (WellFormed 1%N) 500;
                               StartDelivery 7%N (WellFormed 1%N) 600;
                               CompleteDelivery 7%N (WellFormed 1%N) 700;
                               ClaimDelivery 7%N (WellFormed 2%N) 800] fleet))) * 1.
Proof.
  split; [vm_compute; reflexivity|].
  destruct (history_pages_partition 7%N 1
              (run_all [ClaimDelivery 7%N (WellFormed 1%N) 500;
                        StartDelivery 7%N (WellFormed 1%N) 600;
                        CompleteDelivery 7%N (WellFormed 1%N) 700;
                        ClaimDelivery 7%N (WellFormed 2%N) 800] fleet) (le_n 1))
    as (_ & _ & _ & [H _] & _).
  exact H.
Defined.

End DirectoryFacts.

(** ** Delivery photos *)

Section PhotoFacts.
Import Delivery DeliveryController DeliveryPhotos PhotoSpec.

Lemma statusAllows_true k d : statusAllows k d = true ↔ allowedStatus k (status d).
Proof.
  destruct k; simpl.
  - apply status_eqb_eq.
  - unfold status_active. by rewrite orb_true_iff, !status_eqb_eq.
Qed.

Lemma photo_type_refused :
  Js.includes NotificationSchema.typeEnum "delivery_photo_uploaded" = false.
Proof. reflexivity. Qed.

Lemma uploadPhoto_refused k driver id f now s :
  ¬ mayUpload k driver id s →
  uploadPhoto k driver (WellFormed id) (Some f) now s
  = (refuse 404 (notFoundMessage k),
     match DriverRegistrationController.f_public_id f with
     | Some pid => if Js.truthy (Some pid) then destroyIn pid s else s
     | None => s
     end).
Proof.
  intros Hno. unfold uploadPhoto.
  destruct (deliveries (world s) !! id) as [d|] eqn:Hd; [|done].
  destruct (driverId_is driver d && statusAllows k d) eqn:Hq; [|done].
  exfalso. apply Hno. apply andb_true_iff in Hq as [Ho Hs].
  exists d. split; [done|]. split; [by apply driverId_is_true|].
  by apply statusAllows_true.
Qed.

Lemma uploadPhoto_stored k driver id f now s d :
  deliveries (world s) !! id = Some d → driverId d = Ref driver →
  allowedStatus k (status d) →
  let ps := default (mkPhotos None None) (photos s !! id) in
  uploadPhoto k driver (WellFormed id) (Some f) now s
  = (mkResponse 200 true (uploadedMessage k)
       (DriverRegistrationController.f_path f) (Some now) (Some (status d)),
     mkStore (mkWorld (deliveries (world s)) (drivers (world s)) (otps (world s))
                (notifications (world s))
                (destroyed (world s) ++ storedBlob k id s))
             (<[id := set_slot k (photoOf f now) ps]> (photos s))).
Proof.
  intros Hd Ho Hs. cbv zeta. unfold uploadPhoto. rewrite Hd.
  apply driverId_is_true in Ho. apply statusAllows_true in Hs. rewrite Ho, Hs.
  cbn [andb]. unfold NotificationSchema.createValidated.
  rewrite photo_type_refused.
  unfold storedBlob, slotOf, photoOf, destroyIn, destroy, notify.
  destruct s as [[dl dr ot nt de] phs].
  cbn [world photos deliveries drivers otps notifications destroyed].
  destruct (phs !! id) as [ps|]; cbn [default from_option Datatypes.id].
  - destruct (slot k ps) as [ph|] eqn:Hsl; cbn [mbind option_bind];
      [|by rewrite app_nil_r].
    destruct (p_publicId ph) as [old|]; [|by rewrite app_nil_r].
    destruct (Js.truthy (Some old)); cbn [world photos deliveries drivers otps
      notifications destroyed]; by rewrite ?app_nil_r.
  - destruct k; cbn; by rewrite app_nil_r.
Qed.

(** X9: a photo upload needs the owner and the right status.  With a
    file and a well-formed id, [uploadDropOffPhoto] succeeds if and only
    if the delivery is in-transit and attached to the caller, and
    [uploadEscrowPhoto] if and only if it is accepted or in-transit and
    attached to the caller.  A successful upload changes no delivery, no
    driver and no one-time code, so it cannot move a delivery through its
    lifecycle; and it stores no notification, because its type
    'delivery_photo_uploaded' is not in the type enum of the Notification
    schema. *)
Theorem photo_upload_needs_owner_and_status (k : Kind) (driver id : ObjectId)
    (f : DriverRegistrationController.File) (now : Z) (s : Store) :
  let r := match k with
           | DropOff => uploadDropOffPhoto driver (WellFormed id) (Some f) now s
           | Escrow => uploadEscrowPhoto driver (WellFormed id) (Some f) now s
           end in
  (success r.1 = true ↔
   ∃ d, deliveries (world s) !! id = Some d ∧ driverId d = Ref driver
        ∧ match k with
          | DropOff => status d = InTransit
          | Escrow => status d = Accepted ∨ status d = InTransit
          end)
  ∧ (success r.1 = false → code r.1 = 404 ∧ photos r.2 = photos s)
  ∧ deliveries (world r.2) = deliveries (world s)
  ∧ drivers (world r.2) = drivers (world s)
  ∧ otps (world r.2) = otps (world s)
  ∧ notifications (world r.2) = notifications (world s).
Proof.
  cbv zeta.
  assert (match k with
          | DropOff => uploadDropOffPhoto driver (WellFormed id) (Some f) now s
          | Escrow => uploadEscrowPhoto driver (WellFormed id) (Some f) now s
          end = uploadPhoto k driver (WellFormed id) (Some f) now s) as ->
    by (by destruct k).
  assert ((∃ d, deliveries (world s) !! id = Some d ∧ driverId d = Ref driver
                ∧ match k with
                  | DropOff => status d = InTransit
                  | Escrow => status d = Accepted ∨ status d = InTransit
                  end) ↔ mayUpload k driver id s) as ->
    by (unfold mayUpload, allowedStatus; by destruct k).
  destruct (deliveries (world s) !! id) as [d|] eqn:Hd.
  - destruct (driverId_is driver d && statusAllows k d) eqn:Hq.
    + apply andb_true_iff in Hq as [Ho%driverId_is_true Hs%statusAllows_true].
      rewrite (uploadPhoto_stored k driver id f now s d Hd Ho Hs).
      cbn [fst snd success world deliveries drivers otps notifications].
      split_and!; try done. split; [|done]. intros _. by exists d.
    + assert (¬ mayUpload k driver id s) as Hno.
      { intros (d' & Hd' & Ho & Hs). simplify_eq.
        apply driverId_is_true in Ho. apply statusAllows_true in Hs.
        by rewrite Ho, Hs in Hq. }
      rewrite (uploadPhoto_refused k driver id f now s Hno).
      cbn [fst snd success code refuse].
      assert (∀ s', (match DriverRegistrationController.f_public_id f with
                     | Some pid => if Js.truthy (Some pid) then destroyIn pid s else s
                     | None => s end) = s' →
                photos s' = photos s ∧ deliveries (world s') = deliveries (world s)
                ∧ drivers (world s') = drivers (world s)
                ∧ otps (world s') = otps (world s)
                ∧ notifications (world s') = notifications (world s)) as Hsame.
      { intros s' <-. repeat case_match; done. }
      destruct (Hsame _ eq_refl) as (? & ? & ? & ? & ?).
      split_and!; try done; try (split; [done | intros ?; by exfalso]).
  - assert (¬ mayUpload k driver id s) as Hno.
    { intros (d' & Hd' & _). congruence. }
    rewrite (uploadPhoto_refused k driver id f now s Hno).
    cbn [fst snd success code refuse].
    assert (∀ s', (match DriverRegistrationController.f_public_id f with
                   | Some pid => if Js.truthy (Some pid) then destroyIn pid s else s
                   | None => s end) = s' →
              photos s' = photos s ∧ deliveries (world s') = deliveries (world s)
              ∧ drivers (world s') = drivers (world s)
              ∧ otps (world s') = otps (world s)
              ∧ notifications (world s') = notifications (world s)) as Hsame.
    { intros s' <-. repeat case_match; done. }
    destruct (Hsame _ eq_refl) as (? & ? & ? & ? & ?).
    split_and!; try done; try (split; [done | intros ?; by exfalso]).
Qed.

(** X10: a photo replaces the previous one of its kind.  When the caller
    may upload, the slot of that kind holds the new photo (url of the
    file, public id [public_id || filename], upload time, original name),
    the slot of the other kind and the photos of other deliveries are as
    before, and the blob of the replaced photo, if it had a public id, is
    the one blob handed to the store for destruction.  Two uploads in a
    row leave the second photo stored and the first photo's blob
    destroyed. *)
Theorem photo_upload_replaces_previous (k : Kind) (driver id : ObjectId)
    (f g : DriverRegistrationController.File) (t1 t2 : Z) (s : Store)
    (Hmay : mayUpload k driver id s) :
  let r1 := uploadPhoto k driver (WellFormed id) (Some f) t1 s in
  let r2 := uploadPhoto k driver (WellFormed id) (Some g) t2 r1.2 in
  (slotOf k id r1.2 = Some (photoOf f t1)
   ∧ slotOf (otherKind k) id r1.2 = slotOf (otherKind k) id s
   ∧ (∀ j, j ≠ id → photos r1.2 !! j = photos s !! j)
   ∧ destroyed (world r1.2) = destroyed (world s) ++ storedBlob k id s)
  ∧ (success r2.1 = true
     ∧ slotOf k id r2.2 = Some (photoOf g t2)
     ∧ destroyed (world r2.2)
       = destroyed (world s) ++ storedBlob k id s
         ++ match DriverRegistrationController.file_publicId f with
            | Some pid => if Js.truthy (Some pid) then [pid] else []
            | None => []
            end).
Proof.
  cbv zeta. destruct Hmay as (d & Hd & Ho & Hs).
  rewrite (uploadPhoto_stored k driver id f t1 s d Hd Ho Hs). cbn [fst snd].
  set (s1 := mkStore _ _).
  assert (photos s1 !! id
          = Some (set_slot k (photoOf f t1)
                    (default (mkPhotos None None) (photos s !! id)))) as Hp1
    by (subst s1; cbn [photos]; apply lookup_insert_eq).
  rewrite (uploadPhoto_stored k driver id g t2 s1 d Hd Ho Hs). cbn [fst snd success].
  cbn [photos world destroyed].
  assert (storedBlob k id s1
          = match DriverRegistrationController.file_publicId f with
            | Some pid => if Js.truthy (Some pid) then [pid] else []
            | None => []
            end) as Hb.
  { unfold storedBlob, slotOf. rewrite Hp1. by destruct k. }
  rewrite Hb. unfold slotOf. subst s1. cbn [photos world destroyed].
  rewrite !lookup_insert_eq. split_and!; try done.
  - by destruct k.
  - destruct k, (photos s !! id); done.
  - intros j Hj. by rewrite lookup_insert_ne.
  - by destruct k.
  - by rewrite app_assoc.
Qed.

(** X10, instantiated: two drop-off photos for the delivery on the road. *)
Lemma photo_upload_replaces_previous_witness :
  destroyed (world (uploadDropOffPhoto 7%N (WellFormed 1%N) (Some (snapshot "second")) 720
                      (uploadDropOffPhoto 7%N (WellFormed 1%N) (Some (snapshot "first"))
                         710 on_the_road).2).2)
  = ["first"].
Proof.
  destruct (photo_upload_replaces_previous DropOff 7%N 1%N (snapshot "first")
              (snapshot "second") 710 720 on_the_road) as (_ & _ & _ & H).
  - exists (mkDoc 9%N (Ref 7%N) 25 InTransit (Some 500%Z) (Some 600%Z) None 100 600).
    split_and!; reflexivity.
  - exact H.
Defined.

(** X11: the clean-up of a refused upload looks at [public_id] only.  An
    upload that is refused with 404 stores nothing; the uploaded blob is
    handed to the store for destruction when the file carries a
    non-empty [public_id], and is left in the blob store when the file
    carries only a [filename], although a successful upload would have
    recorded that filename as the photo's public id. *)
Theorem refused_photo_cleanup (k : Kind) (driver id : ObjectId)
    (f : DriverRegistrationController.File) (now : Z) (s : Store)
    (Hno : ¬ mayUpload k driver id s) :
  let r := uploadPhoto k driver (WellFormed id) (Some f) now s in
  code r.1 = 404 ∧ photos r.2 = photos s
  ∧ destroyed (world r.2)
    = destroyed (world s)
      ++ match DriverRegistrationController.f_public_id f with
         | Some pid => if Js.truthy (Some pid) then [pid] else []
         | None => []
         end
  ∧ (DriverRegistrationController.f_public_id f = None →
     r.2 = s
     ∧ p_publicId (photoOf f now) = DriverRegistrationController.f_filename f).
Proof.
  cbv zeta. rewrite (uploadPhoto_refused k driver id f now s Hno).
  cbn [fst snd code refuse].
  destruct (DriverRegistrationController.f_public_id f) as [pid|] eqn:Hp.
  - destruct (Js.truthy (Some pid)); cbn [photos world destroyed destroyIn destroy];
      rewrite ?app_nil_r; split_and!; try done.
  - rewrite app_nil_r. split_and!; try done. intros _. split; [done|].
    unfold photoOf, DriverRegistrationController.file_publicId. cbn [p_publicId].
    by rewrite Hp.
Qed.

(** X11, instantiated: driver 8 sends a photo without [public_id] for the
    delivery of driver 7. *)
Lemma refused_photo_cleanup_witness :
  (uploadDropOffPhoto 8%N (WellFormed 1%N) (Some (snapshot_without_id "stray")) 710
     on_the_road).2 = on_the_road.
Proof.
  destruct (refused_photo_cleanup DropOff 8%N 1%N (snapshot_without_id "stray") 710
              on_the_road) as (_ & _ & _ & H).
  - intros (d & Hd & Ho & _). vm_compute in Hd. by simplify_eq.
  - by apply H.
Defined.

End PhotoFacts.
